(** * Location sharing service: the Flask routes of [app.py]

    A shallow embedding of the three JSON routes of [app.py]
    ([/view_location], [/search], [/grant_access]) together with the
    collaborators they call, and the properties of the specification that
    concern them.

    - JSON request bodies are values of [json]; Python's truthiness test
      ([not owner]), [dict.get], [int()], [bytes.hex()], slicing and
      [base64.b64decode] are embedded as functions on them.
    - The handlers run in a state-and-exception monad [M] over a [world]
      (the grant table, the files of the backend directory, the clock and
      entropy cursors, and a log of the calls made).  A [try/except
      Exception] block is [try_except].
    - [access_manager] and [encrypt_utils] are not part of [app.py]; they
      are modelled from the specification (sections 4.1 and 4.2). *)

From Stdlib Require Import ZArith NArith List Bool Lia Sorted.
From Stdlib.Strings Require Import String Ascii Byte.
From Stdlib Require Import SpecFloat DecimalString.
Import ListNotations.

Local Open Scope string_scope.
Local Open Scope Z_scope.
Local Open Scope list_scope.
Local Set Warnings "-register-all".

(** ** JSON values, as [request.get_json()] and [json.load] produce them *)

Inductive json : Type :=
| JNull
| JBool (b : bool)
| JInt (n : Z)
| JFloat (f : spec_float)
| JStr (s : string)
| JArr (xs : list json)
| JObj (kvs : list (string * json)).

(** Python's truth value of a JSON value: [None], [False], [0], [0.0], the
    empty string, the empty list and the empty dictionary are false,
    everything else is true. *)
Definition truthy (v : json) : bool :=
  match v with
  | JNull => false
  | JBool b => b
  | JInt n => negb (n =? 0)
  | JFloat f => match f with S754_zero _ => false | _ => true end
  | JStr s => negb (s =? "")%string
  | JArr xs => match xs with [] => false | _ :: _ => true end
  | JObj kvs => match kvs with [] => false | _ :: _ => true end
  end.

(** [x is None] *)
Definition is_None (v : json) : bool :=
  match v with JNull => true | _ => false end.

(** The name Python gives to the type of a JSON value, as it appears in
    error messages. *)
Definition type_name (v : json) : string :=
  match v with
  | JNull => "NoneType"
  | JBool _ => "bool"
  | JInt _ => "int"
  | JFloat _ => "float"
  | JStr _ => "str"
  | JArr _ => "list"
  | JObj _ => "dict"
  end.

(** A Python [dict] with string keys is an association list; the first
    binding of a key is the one the dictionary holds. *)
Fixpoint assoc (k : string) (kvs : list (string * json)) : option json :=
  match kvs with
  | [] => None
  | (k', v) :: rest => if (k' =? k)%string then Some v else assoc k rest
  end.

(** Equality of identifiers.  On strings this is string equality. *)
Fixpoint json_eqb (a b : json) {struct a} : bool :=
  match a, b with
  | JNull, JNull => true
  | JBool x, JBool y => Bool.eqb x y
  | JInt x, JInt y => (x =? y)
  | JFloat x, JFloat y => SFeqb x y
  | JStr x, JStr y => (x =? y)%string
  | JArr xs, JArr ys =>
      (fix all2 (xs ys : list json) {struct xs} : bool :=
         match xs, ys with
         | [], [] => true
         | x :: xs', y :: ys' => json_eqb x y && all2 xs' ys'
         | _, _ => false
         end) xs ys
  | JObj xs, JObj ys =>
      (fix all2 (xs ys : list (string * json)) {struct xs} : bool :=
         match xs, ys with
         | [], [] => true
         | (k, x) :: xs', (k', y) :: ys' =>
             (k =? k')%string && json_eqb x y && all2 xs' ys'
         | _, _ => false
         end) xs ys
  | _, _ => false
  end.

(** ** Exceptions and results *)

(** A raised exception: its class and [str(e)]. *)
Record exn : Type := mkExn { exn_type : string; exn_str : string }.

Inductive result (A : Type) : Type :=
| Ok (a : A)
| Raise (e : exn).
Arguments Ok {A} a.
Arguments Raise {A} e.

(** [d.get(k)] and [d.get(k, default)]: an [AttributeError] when [d] is not
    a dictionary. *)
Definition get_default (d : json) (k : string) (default : json) : result json :=
  match d with
  | JObj kvs => Ok (match assoc k kvs with Some v => v | None => default end)
  | _ => Raise (mkExn "AttributeError"
                  ("'" ++ type_name d ++ "' object has no attribute 'get'")%string)
  end.

Definition get (d : json) (k : string) : result json := get_default d k JNull.

(** ** Bytes *)

Definition bytes := list byte.

(** An [unsigned char] assignment: the value is reduced modulo 256. *)
Definition byte_of_N (n : N) : byte :=
  match Byte.of_N (n mod 256)%N with
  | Some b => b
  | None => x00
  end.

(** [b[i:j]] for [0 <= i <= j]: never raises, shorter when [b] is. *)
Definition slice {A} (i j : nat) (l : list A) : list A :=
  firstn (j - i) (skipn i l).

(** [b[i:]] *)
Definition slice_from {A} (i : nat) (l : list A) : list A := skipn i l.

Definition hex_digit (n : N) : ascii :=
  match n with
  | 0 => "0" | 1 => "1" | 2 => "2" | 3 => "3" | 4 => "4" | 5 => "5"
  | 6 => "6" | 7 => "7" | 8 => "8" | 9 => "9" | 10 => "a" | 11 => "b"
  | 12 => "c" | 13 => "d" | 14 => "e" | _ => "f"
  end%N%char.

(** [bytes.hex()]: two lower-case hexadecimal digits per byte. *)
Fixpoint hex (bs : bytes) : string :=
  match bs with
  | [] => ""
  | b :: rest =>
      String (hex_digit (Byte.to_N b / 16)%N)
        (String (hex_digit (Byte.to_N b mod 16)%N) (hex rest))
  end.

(** [s.encode("utf-8")]: strings are kept as their UTF-8 bytes. *)
Definition encode_utf8 (s : string) : bytes := list_byte_of_string s.

(** ** Base64 *)

Definition b64_alphabet : list ascii :=
  list_ascii_of_string
    "ABCDEFGHIJKLMNOPQRSTUVWXYZabcdefghijklmnopqrstuvwxyz0123456789+/".

(** [table_b2a_base64]: the character of a 6-bit value. *)
Definition b2a (n : N) : ascii := nth (N.to_nat n) b64_alphabet "="%char.

(** [table_a2b_base64]: the 6-bit value of a character of the alphabet,
    [None] for every other character. *)
Definition a2b (c : ascii) : option N :=
  let n := N_of_ascii c in
  (if (65 <=? n) && (n <=? 90) then Some (n - 65)
   else if (97 <=? n) && (n <=? 122) then Some (n - 71)
   else if (48 <=? n) && (n <=? 57) then Some (n + 4)
   else if n =? 43 then Some 62
   else if n =? 47 then Some 63
   else None)%N.

(** [base64.b64encode]: three bytes give four characters; a last group of
    one or two bytes is padded with [=]. *)
Fixpoint b64encode (bs : bytes) : string :=
  match bs with
  | [] => ""
  | [x] =>
      let a := Byte.to_N x in
      String (b2a (N.shiftr a 2))
        (String (b2a (N.shiftl (N.land a 3) 4)) "==")
  | [x; y] =>
      let a := Byte.to_N x in
      let b := Byte.to_N y in
      String (b2a (N.shiftr a 2))
        (String (b2a (N.lor (N.shiftl (N.land a 3) 4) (N.shiftr b 4)))
           (String (b2a (N.shiftl (N.land b 15) 2)) "="))
  | x :: y :: z :: rest =>
      let a := Byte.to_N x in
      let b := Byte.to_N y in
      let c := Byte.to_N z in
      String (b2a (N.shiftr a 2))
        (String (b2a (N.lor (N.shiftl (N.land a 3) 4) (N.shiftr b 4)))
           (String (b2a (N.lor (N.shiftl (N.land b 15) 2) (N.shiftr c 6)))
              (String (b2a (N.land c 63)) (b64encode rest))))
  end.

Definition binascii_Error (msg : string) : exn := mkExn "binascii.Error" msg.

(** [binascii.a2b_base64] in its default, non-strict mode, which is what
    [base64.b64decode(token)] runs: characters outside the alphabet are
    skipped, a complete pad sequence ends the decoding, and leftover
    characters of an incomplete group are an error.  [quad_pos], [leftchar]
    and [pads] are the loop's variables, [out] the bytes written so far. *)
Fixpoint a2b_base64 (s : string) (quad_pos : nat) (leftchar : N) (pads : nat)
    (out : bytes) : result bytes :=
  match s with
  | EmptyString =>
      match quad_pos with
      | O => Ok out
      | S O =>
          Raise (binascii_Error
            ("Invalid base64-encoded string: number of data characters ("
               ++ NilZero.string_of_uint
                    (Nat.to_uint (List.length out / 3 * 4 + 1))
               ++ ") cannot be 1 more than a multiple of 4")%string)
      | _ => Raise (binascii_Error "Incorrect padding")
      end
  | String ch rest =>
      if (ch =? "=")%char then
        if (2 <=? quad_pos)%nat then
          if (4 <=? quad_pos + S pads)%nat then Ok out
          else a2b_base64 rest quad_pos leftchar (S pads) out
        else a2b_base64 rest quad_pos leftchar pads out
      else
        match a2b ch with
        | None => a2b_base64 rest quad_pos leftchar pads out
        | Some this_ch =>
            match quad_pos with
            | 0%nat => a2b_base64 rest 1 this_ch 0 out
            | 1%nat =>
                a2b_base64 rest 2 (N.land this_ch 15) 0
                  (out ++ [byte_of_N (N.lor (N.shiftl leftchar 2)
                                            (N.shiftr this_ch 4))])
            | 2%nat =>
                a2b_base64 rest 3 (N.land this_ch 3) 0
                  (out ++ [byte_of_N (N.lor (N.shiftl leftchar 4)
                                            (N.shiftr this_ch 2))])
            | _ =>
                a2b_base64 rest 0 0 0
                  (out ++ [byte_of_N (N.lor (N.shiftl leftchar 6) this_ch)])
            end
        end
  end.

(** [base64.b64decode(s)] *)
Definition b64decode (s : string) : result bytes := a2b_base64 s 0 0 0 [].

(** ** What the routes take from outside [app.py]

    Python built-ins whose full definition is not needed ([repr], [int] of a
    string, [json.dumps]), the operating system (clock, secure random
    bytes), the environment variable [ENCRYPT_PASSPHRASE], and the
    primitives behind the modules that are not part of [app.py]. *)
Record externals : Type := {
  (** [repr(v)], which is also [str(v)] when [v] is not a string *)
  py_repr : json -> string;
  (** [int(s)] for a string [s]; [None] is a [ValueError] *)
  py_int_of_str : string -> option Z;
  (** [json.dumps(v)] *)
  json_dumps : json -> string;
  (** the [n]-th reading of the clock, in seconds *)
  clock : nat -> Z;
  (** the [n]-th byte of the system's secure random source *)
  entropy : nat -> byte;
  (** [os.getenv("ENCRYPT_PASSPHRASE", "mySecret123")] *)
  ENCRYPT_PASSPHRASE : string;
  (** [cli_search.run_search(query, lat, lon)] *)
  run_search : json -> json -> json -> result json;
  (** the key-derivation function behind [derive_kek] *)
  kdf : string -> bytes -> bytes;
  (** the AEAD cipher behind [encrypt_with_key]: key, nonce and plaintext
      give ciphertext and tag *)
  aead : bytes -> bytes -> bytes -> bytes * bytes
}.

(** Modelled from the spec: the cipher behind [encrypt_utils] is not part
    of [app.py].  Its length contract (section 4.2): the ciphertext is as
    long as the plaintext and the tag has 16 bytes. *)
Definition aead_contract (E : externals) : Prop :=
  forall key nonce pt,
    List.length (fst (aead E key nonce pt)) = List.length pt /\
    List.length (snd (aead E key nonce pt)) = 16%nat.

(** [int(float)]: truncation towards zero. *)
Definition int_of_float (f : spec_float) : result Z :=
  match f with
  | S754_zero _ => Ok 0
  | S754_infinity _ =>
      Raise (mkExn "OverflowError" "cannot convert float infinity to integer")
  | S754_nan =>
      Raise (mkExn "ValueError" "cannot convert float NaN to integer")
  | S754_finite sign m e =>
      let magnitude := Z.shiftl (Zpos m) e in
      Ok (if sign then - magnitude else magnitude)
  end.

(** [int(v)] *)
Definition py_int (E : externals) (v : json) : result Z :=
  match v with
  | JInt n => Ok n
  | JBool b => Ok (if b then 1 else 0)
  | JFloat f => int_of_float f
  | JStr s =>
      match py_int_of_str E s with
      | Some n => Ok n
      | None =>
          Raise (mkExn "ValueError"
            ("invalid literal for int() with base 10: " ++ py_repr E v)%string)
      end
  | _ =>
      Raise (mkExn "TypeError"
        ("int() argument must be a string, a bytes-like object or a real number, not '"
           ++ type_name v ++ "'")%string)
  end.

(** [str(v)], as an f-string formats [v]. *)
Definition py_str (E : externals) (v : json) : string :=
  match v with
  | JStr s => s
  | _ => py_repr E v
  end.

(** [a or b] *)
Definition py_or (a b : json) : json := if truthy a then a else b.

(** ** The world the routes act on *)

(** Modelled from the spec: the grants of [access_manager], which is not
    part of [app.py].  One grant is one owner's authorization of one viewer,
    with its creation and expiry times (section 3). *)
Record Grant : Type := mkGrant {
  owner : json;
  viewer : json;
  granted_at : Z;
  expires_at : Z
}.

(** A file of the backend directory: its name, modification time and, when
    it holds a JSON document, the document. *)
Record file : Type := mkFile {
  f_name : string;
  st_mtime : Z;
  f_json : option json
}.

(** The calls a route makes, in the order it makes them. *)
Inductive event : Type :=
| revoke_expired_called
| is_access_allowed_called (owner viewer : json) (answer : bool)
| grant_access_called (owner viewer : json) (duration_minutes : Z)
| run_search_called (query lat lon : json)
| glob_called
| file_read (name : string)
| file_written (name : string).

Record world : Type := mkWorld {
  (** the grant table of [access_manager] *)
  grants : list Grant;
  (** the backend directory, in the order the system lists it *)
  files : list file;
  (** how many times the clock has been read *)
  ticks : nat;
  (** how many random bytes have been drawn *)
  drawn : nat;
  (** the calls made so far *)
  calls : list event
}.

(** ** State and exceptions *)

Definition M (A : Type) : Type := world -> result A * world.

Definition ret {A} (a : A) : M A := fun w => (Ok a, w).

Definition raise {A} (e : exn) : M A := fun w => (Raise e, w).

Definition bind {A B} (m : M A) (k : A -> M B) : M B :=
  fun w =>
    match m w with
    | (Ok a, w') => k a w'
    | (Raise e, w') => (Raise e, w')
    end.

(** A pure computation that may raise. *)
Definition lift {A} (r : result A) : M A := fun w => (r, w).

(** [try: m  except Exception as e: h e] *)
Definition try_except {A} (m : M A) (h : exn -> M A) : M A :=
  fun w =>
    match m w with
    | (Ok a, w') => (Ok a, w')
    | (Raise e, w') => h e w'
    end.

Notation "x <- m ;; k" := (bind m (fun x => k))
  (at level 61, m at next level, right associativity).
Notation "m ;; k" := (bind m (fun _ => k))
  (at level 61, right associativity).

Definition emit (e : event) : M unit :=
  fun w => (Ok tt, mkWorld (grants w) (files w) (ticks w) (drawn w) (calls w ++ [e])).

Definition set_grants (gs : list Grant) : M unit :=
  fun w => (Ok tt, mkWorld gs (files w) (ticks w) (drawn w) (calls w)).

Definition set_files (fs : list file) : M unit :=
  fun w => (Ok tt, mkWorld (grants w) fs (ticks w) (drawn w) (calls w)).

Definition get_grants : M (list Grant) := fun w => (Ok (grants w), w).

Definition get_files : M (list file) := fun w => (Ok (files w), w).

(** Reading the clock. *)
Definition now (E : externals) : M Z :=
  fun w => (Ok (clock E (ticks w)),
            mkWorld (grants w) (files w) (S (ticks w)) (drawn w) (calls w)).

(** [secrets.token_bytes(n)]: the next [n] bytes of the random source. *)
Definition token_bytes (E : externals) (n : nat) : M bytes :=
  fun w => (Ok (map (entropy E) (seq (drawn w) n)),
            mkWorld (grants w) (files w) (ticks w) (drawn w + n) (calls w)).

(** ** [access_manager] *)

Module access_manager.

(** Modelled from the spec: the grant table of [access_manager] is keyed by
    the pair (owner, viewer) (section 3).  Whether a grant is the one of
    the pair [(o, v)]. *)
Definition for_pair (o v : json) (g : Grant) : bool :=
  json_eqb (owner g) o && json_eqb (viewer g) v.

(** Modelled from the spec: a grant is valid at time [t] when
    [expires_at > t]; expiry is strict (section 4.1). *)
Definition live (t : Z) (g : Grant) : bool := t <? expires_at g.

(** Modelled from the spec: [access_manager.grant_access] is not part of
    [app.py].  It inserts or replaces the grant of [(owner, viewer)] with
    [expires_at = now + duration_minutes] and returns the created grant
    (section 4.1).  Times are in seconds. *)
Definition grant_access (E : externals) (o v : json) (duration_minutes : Z)
  : M Grant :=
  emit (grant_access_called o v duration_minutes) ;;
  t <- now E ;;
  gs <- get_grants ;;
  let g := mkGrant o v t (t + 60 * duration_minutes) in
  set_grants (filter (fun g' => negb (for_pair o v g')) gs ++ [g]) ;;
  ret g.

(** Modelled from the spec: the answer of [is_access_allowed] on a grant
    table at time [t]: some grant of the pair has [expires_at > t]
    (section 4.1). *)
Definition allowed (gs : list Grant) (t : Z) (o v : json) : bool :=
  existsb (fun g => for_pair o v g && live t g) gs.

(** Modelled from the spec: [access_manager.is_access_allowed] is not part
    of [app.py].  It answers true iff a grant exists for [(owner, viewer)]
    with [expires_at > now], and removes nothing (section 4.1). *)
Definition is_access_allowed (E : externals) (o v : json) : M bool :=
  t <- now E ;;
  gs <- get_grants ;;
  let answer := allowed gs t o v in
  emit (is_access_allowed_called o v answer) ;;
  ret answer.

(** Modelled from the spec: [access_manager.revoke_expired] is not part of
    [app.py].  It removes every grant whose [expires_at <= now] and
    returns nothing (section 4.1). *)
Definition revoke_expired (E : externals) : M unit :=
  emit revoke_expired_called ;;
  t <- now E ;;
  gs <- get_grants ;;
  set_grants (filter (live t) gs).

(** Modelled from the spec: how [jsonify] renders the grant that
    [grant_access] returns: its owner, viewer and [expires_at]
    (section 6). *)
Definition rule_json (g : Grant) : json :=
  JObj [("owner", owner g); ("viewer", viewer g);
        ("expires_at", JInt (expires_at g))].

End access_manager.

(** ** [encrypt_utils] *)

Module encrypt_utils.

(** Modelled from the spec: [encrypt_utils.derive_kek] is not part of
    [app.py].  It is a deterministic key-derivation function of the
    passphrase and the salt (section 4.2). *)
Definition derive_kek (E : externals) (passphrase : string) (salt : bytes)
  : bytes :=
  kdf E passphrase salt.

(** Modelled from the spec: [encrypt_utils.encrypt_with_key] is not part
    of [app.py].  It draws a fresh 12-byte nonce and runs the AEAD cipher
    over the plaintext (section 4.2); its result is the one token
    [base64(nonce + tag + ciphertext)] that [search] splits again
    (section 9 of the specification and the comment in [search]). *)
Definition encrypt_with_key (E : externals) (key plaintext : bytes)
  : M string :=
  nonce <- token_bytes E 12 ;;
  let (ciphertext, tag) := aead E key nonce plaintext in
  ret (b64encode (nonce ++ tag ++ ciphertext)).

End encrypt_utils.

(** ** The backend directory *)

Definition ends_with (suffix s : string) : bool :=
  (String.length suffix <=? String.length s)%nat &&
  (substring (String.length s - String.length suffix) (String.length suffix) s
   =? suffix)%string.

(** Whether a file name matches the pattern [places_output_*.enc.json]. *)
Definition matches_places_output (name : string) : bool :=
  prefix "places_output_" name && ends_with ".enc.json" name &&
  (String.length "places_output_" + String.length ".enc.json"
   <=? String.length name)%nat.

Fixpoint insert_by_mtime (f : file) (l : list file) : list file :=
  match l with
  | [] => [f]
  | g :: l' =>
      if st_mtime f <=? st_mtime g then f :: l
      else g :: insert_by_mtime f l'
  end.

(** [sorted(fs, key=lambda f: f.stat().st_mtime)]: ascending and stable. *)
Fixpoint sorted_by_mtime (fs : list file) : list file :=
  match fs with
  | [] => []
  | f :: fs' => insert_by_mtime f (sorted_by_mtime fs')
  end.

(** [backend_dir.glob("places_output_*.enc.json")] *)
Definition glob_places_output : M (list file) :=
  emit glob_called ;;
  fs <- get_files ;;
  ret (filter (fun f => matches_places_output (f_name f)) fs).

(** [l[-1]] of a list known to be non-empty; [None] when it is empty. *)
Fixpoint last_item {A} (l : list A) : option A :=
  match l with
  | [] => None
  | [x] => Some x
  | _ :: l' => last_item l'
  end.

(** [json.load(open(f, "r"))] for a file that the directory listing gave. *)
Definition open_json_load (f : file) : M json :=
  emit (file_read (f_name f)) ;;
  match f_json f with
  | Some doc => ret doc
  | None =>
      raise (mkExn "JSONDecodeError" "Expecting value: line 1 column 1 (char 0)")
  end.

Fixpoint has_char (c : ascii) (s : string) : bool :=
  match s with
  | EmptyString => false
  | String c' s' => (c' =? c)%char || has_char c s'
  end.

Fixpoint lookup_file (name : string) (fs : list file) : option file :=
  match fs with
  | [] => None
  | f :: fs' => if (f_name f =? name)%string then Some f else lookup_file name fs'
  end.

(** Writing [doc] to the file [name] at time [t]: an existing file is
    overwritten where it stands, a new one is added to the directory. *)
Fixpoint store_file (name : string) (t : Z) (doc : json) (fs : list file)
  : list file :=
  match fs with
  | [] => [mkFile name t (Some doc)]
  | f :: fs' =>
      if (f_name f =? name)%string then mkFile name t (Some doc) :: fs'
      else f :: store_file name t doc fs'
  end.

(** [with open(backend_dir / name, "w") as f: json.dump(doc, f)].  The
    backend directory has no sub-directory, so a name with a [/] names a
    file in a directory that does not exist; a name with a NUL character is
    refused.  What else the operating system may refuse (a name longer than
    the file system allows, a directory that cannot be written, a full
    disk) is outside this model. *)
Definition open_json_dump (E : externals) (name : string) (doc : json) : M unit :=
  if has_char "000"%char name then
    raise (mkExn "ValueError" "embedded null byte")
  else if has_char "/"%char name then
    raise (mkExn "FileNotFoundError"
             ("[Errno 2] No such file or directory: '" ++ name ++ "'")%string)
  else
    emit (file_written name) ;;
    t <- now E ;;
    fs <- get_files ;;
    set_files (store_file name t doc fs).

(** ** The routes of [app.py] *)

(** The request of a route: what [request.get_json()] gives, a JSON value
    or the exception it raises on a body that is not JSON. *)
Record request : Type := mkRequest { get_json : result json }.

Record response : Type := mkResponse { status : Z; body : json }.

(** [jsonify(v)] and [jsonify(v), code] *)
Definition jsonify (v : json) : response := mkResponse 200 v.
Definition jsonify_status (v : json) (code : Z) : response := mkResponse code v.

Definition error_body (msg : string) : json := JObj [("error", JStr msg)].

(** [except Exception as e: return jsonify({"error": str(e)}), 500] *)
Definition internal_error (e : exn) : M response :=
  ret (jsonify_status (error_body (exn_str e)) 500).

(** [/view_location] *)
Definition view_location (E : externals) (req : request) : M response :=
  try_except
    (data <- lift (get_json req) ;;
     owner <- lift (get data "owner") ;;
     viewer <- lift (get data "viewer") ;;
     if negb (truthy owner) || negb (truthy viewer) then
       ret (jsonify_status (error_body "Missing owner or viewer") 400)
     else
       access_manager.revoke_expired E ;;
       allowed <- access_manager.is_access_allowed E owner viewer ;;
       if negb allowed then
         ret (jsonify_status
                (error_body "Unauthorized access or access expired") 403)
       else
         matching <- glob_places_output ;;
         let enc_files := sorted_by_mtime matching in
         match last_item enc_files with
         | None =>
             ret (jsonify_status
                    (error_body "No encrypted location data found") 404)
         | Some latest_file =>
             enc_content <- open_json_load latest_file ;;
             enc_data <- lift (get_default enc_content "enc_data" enc_content) ;;
             ret (jsonify (JObj [("enc_data", enc_data)]))
         end)
    internal_error.

(** The file name [f"places_output_{owner or 'user'}.enc.json"] *)
Definition places_output_name (E : externals) (owner : json) : string :=
  ("places_output_" ++ py_str E (py_or owner (JStr "user")) ++ ".enc.json")%string.

(** [/search] *)
Definition search (E : externals) (req : request) : M response :=
  try_except
    (access_manager.revoke_expired E ;;
     data <- lift (get_json req) ;;
     query <- lift (get data "query") ;;
     lat <- lift (get data "lat") ;;
     lon <- lift (get data "lon") ;;
     owner <- lift (get data "owner") ;;
     if negb (truthy query) || is_None lat || is_None lon then
       ret (jsonify_status (error_body "Missing query or coordinates") 400)
     else
       emit (run_search_called query lat lon) ;;
       result <- lift (run_search E query lat lon) ;;
       salt <- token_bytes E 16 ;;
       let key := encrypt_utils.derive_kek E (ENCRYPT_PASSPHRASE E) salt in
       token <- encrypt_utils.encrypt_with_key E key
                  (encode_utf8 (json_dumps E result)) ;;
       raw <- lift (b64decode token) ;;
       let nonce := slice 0 12 raw in
       let tag := slice 12 28 raw in
       let ciphertext := slice_from 28 raw in
       let enc_data :=
         JObj [("salt_hex", JStr (hex salt));
               ("nonce_hex", JStr (hex nonce));
               ("tag_hex", JStr (hex tag));
               ("ciphertext_hex", JStr (hex ciphertext))] in
       let filename := places_output_name E owner in
       open_json_dump E filename (JObj [("enc_data", enc_data)]) ;;
       ret (jsonify (JObj [("enc_data", enc_data)])))
    internal_error.

(** [/grant_access] *)
Definition grant_access (E : externals) (req : request) : M response :=
  try_except
    (data <- lift (get_json req) ;;
     owner <- lift (get data "owner") ;;
     viewer <- lift (get data "viewer") ;;
     minutes <- lift (get_default data "duration_minutes" (JInt 5)) ;;
     duration <- lift (py_int E minutes) ;;
     if negb (truthy owner) || negb (truthy viewer) then
       ret (jsonify_status (error_body "Missing owner or viewer") 400)
     else
       rule <- access_manager.grant_access E owner viewer duration ;;
       ret (jsonify (JObj [("message", JStr "✅ Access granted");
                           ("rule", access_manager.rule_json rule)])))
    internal_error.

(** Serving a request: the response of the route and the world it leaves.
    Every route catches [Exception], so the second case does not arise
    (see [view_location_returns], [search_returns], [grant_access_returns]). *)
Definition serve (route : M response) (w : world) : response * world :=
  match route w with
  | (Ok r, w') => (r, w')
  | (Raise e, w') => (jsonify_status (error_body (exn_str e)) 500, w')
  end.

(** The request whose body is the JSON object [kvs]. *)
Definition post (kvs : list (string * json)) : request :=
  mkRequest (Ok (JObj kvs)).

(** The value of [data.get(k)] for the object [kvs]. *)
Definition field (k : string) (kvs : list (string * json)) : json :=
  match assoc k kvs with Some v => v | None => JNull end.

(** The stored payload of an owner: the document of
    [places_output_{owner}.enc.json]. *)
Definition payload_of (fs : list file) (owner_name : string) : option json :=
  match lookup_file ("places_output_" ++ owner_name ++ ".enc.json")%string fs with
  | Some f => f_json f
  | None => None
  end.

(** The names of the files written among a list of calls. *)
Fixpoint written (evs : list event) : list string :=
  match evs with
  | [] => []
  | file_written name :: evs' => name :: written evs'
  | _ :: evs' => written evs'
  end.

(** The names of the files read among a list of calls. *)
Fixpoint read (evs : list event) : list string :=
  match evs with
  | [] => []
  | file_read name :: evs' => name :: read evs'
  | _ :: evs' => read evs'
  end.

(** The durations that [access_manager.grant_access] received. *)
Fixpoint granted (evs : list event) : list Z :=
  match evs with
  | [] => []
  | grant_access_called _ _ d :: evs' => d :: granted evs'
  | _ :: evs' => granted evs'
  end.

(** ** A concrete instance of the collaborators

    Stand-ins with which the routes can be run: a counter for the clock, an
    arithmetic byte sequence for the random source, a decimal reading of
    [int()], and a cipher that has the lengths of the real one (and none of
    its secrecy). *)
Module demo.

Definition repr (v : json) : string :=
  match v with
  | JNull => "None"
  | JBool true => "True"
  | JBool false => "False"
  | JInt n => NilZero.string_of_int (Z.to_int n)
  | JStr s => ("'" ++ s ++ "'")%string
  | _ => "..."
  end.

Definition int_of_str (s : string) : option Z :=
  option_map Z.of_int (NilZero.int_of_string s).

Definition dumps (v : json) : string :=
  match v with
  | JObj kvs => ("{" ++ concat ", " (map fst kvs) ++ "}")%string
  | _ => repr v
  end.

Definition tick_clock (n : nat) : Z := 1000 + Z.of_nat n.

Definition byte_stream (n : nat) : byte :=
  byte_of_N (N.of_nat n * 37 + 11).

Definition search_places (query lat lon : json) : result json :=
  Ok (JObj [("query", query); ("lat", lat); ("lon", lon)]).

Definition stretch (passphrase : string) (salt : bytes) : bytes :=
  firstn 32 (encode_utf8 passphrase ++ salt ++ repeat x00 32).

Definition xor_byte (a b : byte) : byte :=
  byte_of_N (N.lxor (Byte.to_N a) (Byte.to_N b)).

Definition cipher (key nonce pt : bytes) : bytes * bytes :=
  let k := xor_byte (hd x00 key) (hd x00 nonce) in
  (map (xor_byte k) pt,
   map (fun i => nth i (key ++ nonce) x00) (seq 0 16)).

Definition E : externals := {|
  py_repr := repr;
  py_int_of_str := int_of_str;
  json_dumps := dumps;
  clock := tick_clock;
  entropy := byte_stream;
  ENCRYPT_PASSPHRASE := "mySecret123";
  run_search := search_places;
  kdf := stretch;
  aead := cipher
|}.

Definition empty_world : world := mkWorld [] [] 0 0 [].

(** Requests of a small history: three owners search, one of them
    without naming an owner; alice grants bob access; bob asks for
    alice's location. *)
Definition search_by (who : string) : list (string * json) :=
  [("query", JStr "cafe"); ("lat", JInt 1); ("lon", JInt 2);
   ("owner", JStr who)].
Definition search_unnamed : list (string * json) :=
  [("query", JStr "cafe"); ("lat", JInt 3); ("lon", JInt 4)].
Definition alice_bob : list (string * json) :=
  [("owner", JStr "alice"); ("viewer", JStr "bob")].
Definition alice_bob_for (minutes : Z) : list (string * json) :=
  [("owner", JStr "alice"); ("viewer", JStr "bob");
   ("duration_minutes", JInt minutes)].

(** The world after [kvs] was posted to a route. *)
Definition after (route : externals -> request -> M response)
    (kvs : list (string * json)) (w : world) : world :=
  snd (serve (route E (post kvs)) w).

(** Alice searched, then carol searched, then alice granted bob access. *)
Definition alice_then_carol : world :=
  after grant_access alice_bob
    (after search (search_by "carol")
       (after search (search_by "alice") empty_world)).

(** Alice granted bob access and nobody has searched. *)
Definition alice_granted : world := after grant_access alice_bob empty_world.

(** The owner named "user" searched. *)
Definition user_searched : world := after search (search_by "user") empty_world.

(** A grant of alice to bob that expired at time 900, before the clock
    starts. *)
Definition stale_grant : world :=
  mkWorld [mkGrant (JStr "alice") (JStr "bob") 600 900] [] 0 0 [].

End demo.

(** ** Definitions used to state the properties *)

(** *** Base64, six bits at a time *)

(** A character of the alphabet is not the pad and decodes to its value. *)
Definition sextet_ok (n : N) : bool :=
  negb (b2a n =? "=")%char &&
  match a2b (b2a n) with Some m => (m =? n)%N | None => false end.

(** The four 6-bit values of three bytes [a], [b], [c]. *)
Definition s0 (a : N) : N := N.shiftr a 2.
Definition s1 (a b : N) : N := N.lor (N.shiftl (N.land a 3) 4) (N.shiftr b 4).
Definition s2 (b c : N) : N := N.lor (N.shiftl (N.land b 15) 2) (N.shiftr c 6).
Definition s3 (c : N) : N := N.land c 63.

(** Everything the decoder computes from two neighbouring bytes. *)
Definition pair_ok (a b : N) : bool :=
  ((s0 a <? 64) && (s1 a b <? 64) && (s2 a b <? 64) && (s3 a <? 64) &&
   ((N.lor (N.shiftl (s0 a) 2) (N.shiftr (s1 a b) 4)) mod 256 =? a) &&
   (N.land (s1 a b) 15 =? N.shiftr b 4) &&
   ((N.lor (N.shiftl (N.shiftr a 4) 4) (N.shiftr (s2 a b) 2)) mod 256 =? a) &&
   (N.land (s2 a b) 3 =? N.shiftr b 6) &&
   ((N.lor (N.shiftl (N.shiftr a 6) 6) (s3 a)) mod 256 =? a))%N.

(** *** The worlds and responses of a route *)

(** The world after [access_manager.revoke_expired()]. *)
Definition revoked (E : externals) (w : world) : world :=
  mkWorld (filter (access_manager.live (clock E (ticks w))) (grants w))
    (files w) (S (ticks w)) (drawn w) (calls w ++ [revoke_expired_called]).

(** The salt and the nonce that a [/search] request draws in world [w]. *)
Definition salt_at (E : externals) (w : world) : bytes :=
  map (entropy E) (seq (drawn w) 16).
Definition nonce_at (E : externals) (w : world) : bytes :=
  map (entropy E) (seq (drawn w + 16) 12).

(** The plaintext of a search result, and what the cipher makes of it. *)
Definition plaintext_of (E : externals) (result : json) : bytes :=
  encode_utf8 (json_dumps E result).
Definition sealed (E : externals) (w : world) (result : json) : bytes * bytes :=
  aead E (encrypt_utils.derive_kek E (ENCRYPT_PASSPHRASE E) (salt_at E w))
    (nonce_at E w) (plaintext_of E result).

(** The bytes inside the token: nonce, tag, ciphertext. *)
Definition raw_token (E : externals) (w : world) (result : json) : bytes :=
  nonce_at E w ++ snd (sealed E w result) ++ fst (sealed E w result).

(** The record with the four hexadecimal fields. *)
Definition enc_record (salt nonce tag ciphertext : bytes) : json :=
  JObj [("enc_data",
         JObj [("salt_hex", JStr (hex salt));
               ("nonce_hex", JStr (hex nonce));
               ("tag_hex", JStr (hex tag));
               ("ciphertext_hex", JStr (hex ciphertext))])].

(** The payload that a [/search] request makes of a search result. *)
Definition payload_at (E : externals) (w : world) (result : json) : json :=
  let raw := raw_token E w result in
  enc_record (salt_at E w) (slice 0 12 raw) (slice 12 28 raw) (slice_from 28 raw).

(** Whether [open(..., "w")] accepts a file name. *)
Definition writable (name : string) : bool :=
  negb (has_char "000"%char name) && negb (has_char "/"%char name).

(** The world after a successful [/search] request. *)
Definition searched (E : externals) (w : world) (query lat lon owner result : json)
  : world :=
  let name := places_output_name E owner in
  mkWorld (grants (revoked E w))
    (store_file name (clock E (S (ticks w))) (payload_at E w result) (files w))
    (S (S (ticks w))) (drawn w + 16 + 12)
    (calls w ++ [revoke_expired_called; run_search_called query lat lon;
                 file_written name]).

(** The answer that [is_access_allowed(o, v)] gives when it is called right
    after [revoke_expired()] in world [w]: the clock is read once by each. *)
Definition answer_at (E : externals) (w : world) (o v : json) : bool :=
  access_manager.allowed (grants (revoked E w)) (clock E (S (ticks w))) o v.

(** The world after [revoke_expired()] and [is_access_allowed(o, v)]. *)
Definition checked (E : externals) (w : world) (o v : json) : world :=
  mkWorld (grants (revoked E w)) (files w) (S (S (ticks w))) (drawn w)
    (calls w ++ [revoke_expired_called;
                 is_access_allowed_called o v (answer_at E w o v)]).

Definition with_calls (evs : list event) (w : world) : world :=
  mkWorld (grants w) (files w) (ticks w) (drawn w) (calls w ++ evs).

(** The file that [/view_location] picks: the last of the matching files in
    the order of their modification times. *)
Definition latest_file (fs : list file) : option file :=
  last_item (sorted_by_mtime
               (filter (fun f => matches_places_output (f_name f)) fs)).

(** What [/view_location] does once access is allowed: its response and the
    calls it makes. *)
Definition release (fs : list file) : response * list event :=
  match latest_file fs with
  | None =>
      (jsonify_status (error_body "No encrypted location data found") 404,
       [glob_called])
  | Some f =>
      (match f_json f with
       | None =>
           jsonify_status
             (error_body "Expecting value: line 1 column 1 (char 0)") 500
       | Some doc =>
           match get_default doc "enc_data" doc with
           | Ok enc_data => jsonify (JObj [("enc_data", enc_data)])
           | Raise e => jsonify_status (error_body (exn_str e)) 500
           end
       end,
       [glob_called; file_read (f_name f)])
  end.

(** The value of [data.get("duration_minutes", 5)] for the object [kvs]. *)
Definition minutes_field (kvs : list (string * json)) : json :=
  match assoc "duration_minutes" kvs with Some v => v | None => JInt 5 end.

(** The world after [access_manager.grant_access(o, v, d)]. *)
Definition granted_world (E : externals) (w : world) (o v : json) (d : Z) : world :=
  mkWorld
    (filter (fun g => negb (access_manager.for_pair o v g)) (grants w)
       ++ [mkGrant o v (clock E (ticks w)) (clock E (ticks w) + 60 * d)])
    (files w) (S (ticks w)) (drawn w)
    (calls w ++ [grant_access_called o v d]).

(** *** The backend directory and the payload record *)

(** The files that [glob("places_output_*.enc.json")] lists. *)
Definition matching (fs : list file) : list file :=
  filter (fun f => matches_places_output (f_name f)) fs.

(** The order that [sorted(..., key=st_mtime)] establishes. *)
Definition mtime_le (f g : file) : Prop := st_mtime f <= st_mtime g.

(** The names of the files of the directory, in its order. *)
Definition names (fs : list file) : list string := map f_name fs.

(** Two hexadecimal digits are equal only for equal values. *)
Definition hex_digit_ok (a b : N) : bool :=
  implb (hex_digit a =? hex_digit b)%char (a =? b)%N.

(** The message of the [AttributeError] or of the exception of
    [get_json()] that a route reports for a body that is not an object. *)
Definition bad_body_message (req : request) : string :=
  match get_json req with
  | Ok d => ("'" ++ type_name d ++ "' object has no attribute 'get'")%string
  | Raise e => exn_str e
  end.

(** Worlds and requests on which the further properties are run. *)
Module scenes.

(** A directory with a file that is no JSON document, an older payload
    file without the [enc_data] wrapper, and a file that the pattern does
    not match; alice has granted bob access until time 5000. *)
Definition mixed_directory : world :=
  mkWorld [mkGrant (JStr "alice") (JStr "bob") 0 5000]
    [mkFile "places_output_broken.enc.json" 10 None;
     mkFile "places_output_old.enc.json" 20
       (Some (JObj [("salt_hex", JStr "00"); ("nonce_hex", JStr "01")]));
     mkFile "notes.txt" 900 (Some JNull)]
    0 0 [].

(** A request for [/grant_access] whose duration is an explicit null. *)
Definition null_duration : list (string * json) :=
  [("owner", JStr "alice"); ("viewer", JStr "bob");
   ("duration_minutes", JNull)].

(** A request for [/search] at latitude and longitude zero. *)
Definition at_origin : list (string * json) :=
  [("query", JStr "cafe"); ("lat", JInt 0); ("lon", JFloat (S754_zero false));
   ("owner", JStr "alice")].

(** A request for [/search] without a query. *)
Definition no_query : list (string * json) :=
  [("lat", JInt 1); ("lon", JInt 2); ("owner", JStr "alice")].

End scenes.

(** Closing a goal about the shape of a response. *)
Ltac shape :=
  cbn [fst status body jsonify jsonify_status];
  first
    [ left; split; [reflexivity|eexists; reflexivity]
    | right; split;
      [ first [ left; reflexivity
              | right; left; reflexivity
              | right; right; left; reflexivity
              | right; right; right; reflexivity
              | right; reflexivity ]
      | eexists; reflexivity ] ].

(** * Properties *)

(** ** Base64: decoding an encoding gives the bytes back *)

Section Base64.

Lemma forallb_N_below (P : N -> bool) (k : nat) :
  forallb P (map N.of_nat (seq 0 k)) = true ->
  forall n, (n < N.of_nat k)%N -> P n = true.
Proof.
  intros H n Hn.
  rewrite forallb_forall in H. apply H.
  apply in_map_iff. exists (N.to_nat n). split.
  - apply N2Nat.id.
  - apply in_seq. lia.
Qed.

Lemma to_N_lt_256 (x : byte) : (Byte.to_N x < 256)%N.
Proof. pose proof (Byte.to_N_bounded x). lia. Qed.

Lemma byte_of_to_N (x : byte) : byte_of_N (Byte.to_N x) = x.
Proof.
  unfold byte_of_N.
  rewrite N.mod_small by apply to_N_lt_256.
  now rewrite Byte.of_to_N.
Qed.

Lemma sextet_ok_all n : (n < 64)%N -> sextet_ok n = true.
Proof. apply (forallb_N_below sextet_ok 64). vm_compute. reflexivity. Qed.

Lemma a2b_b2a n : (n < 64)%N -> a2b (b2a n) = Some n.
Proof.
  intros H. apply sextet_ok_all in H. unfold sextet_ok in H.
  apply andb_true_iff in H. destruct H as [_ H].
  destruct (a2b (b2a n)); [|discriminate].
  apply N.eqb_eq in H. now subst.
Qed.

Lemma b2a_not_pad n : (n < 64)%N -> (b2a n =? "=")%char = false.
Proof.
  intros H. apply sextet_ok_all in H. unfold sextet_ok in H.
  apply andb_true_iff in H. destruct H as [H _].
  now apply negb_true_iff in H.
Qed.

Lemma pair_ok_all a b : (a < 256)%N -> (b < 256)%N -> pair_ok a b = true.
Proof.
  intros Ha Hb. revert b Hb.
  apply (forallb_N_below (pair_ok a) 256).
  revert a Ha.
  apply (forallb_N_below
           (fun a => forallb (pair_ok a) (map N.of_nat (seq 0 256))) 256).
  vm_compute. reflexivity.
Qed.

Lemma pair_facts a b :
  (a < 256)%N -> (b < 256)%N ->
  (s0 a < 64 /\ s1 a b < 64 /\ s2 a b < 64 /\ s3 a < 64)%N /\
  (N.lor (N.shiftl (s0 a) 2) (N.shiftr (s1 a b) 4) mod 256 = a)%N /\
  N.land (s1 a b) 15 = N.shiftr b 4 /\
  (N.lor (N.shiftl (N.shiftr a 4) 4) (N.shiftr (s2 a b) 2) mod 256 = a)%N /\
  N.land (s2 a b) 3 = N.shiftr b 6 /\
  (N.lor (N.shiftl (N.shiftr a 6) 6) (s3 a) mod 256 = a)%N.
Proof.
  intros Ha Hb. pose proof (pair_ok_all a b Ha Hb) as H.
  unfold pair_ok in H.
  repeat (apply andb_true_iff in H; destruct H as [H ?]).
  repeat match goal with
         | H : (_ <? _)%N = true |- _ => apply N.ltb_lt in H
         | H : (_ =? _)%N = true |- _ => apply N.eqb_eq in H
         end.
  repeat split; assumption.
Qed.

Lemma byte_of_N_mod (X : N) (x : byte) :
  (X mod 256 = Byte.to_N x)%N -> byte_of_N X = x.
Proof. intros H. unfold byte_of_N. now rewrite H, Byte.of_to_N. Qed.

(** One step of the decoder on a character of the alphabet. *)
Lemma a2b_base64_step (n : N) (rest : string) (q : nat) (l : N) (p : nat)
    (out : bytes) :
  (n < 64)%N ->
  a2b_base64 (String (b2a n) rest) q l p out =
  match q with
  | 0%nat => a2b_base64 rest 1 n 0 out
  | 1%nat =>
      a2b_base64 rest 2 (N.land n 15) 0
        (out ++ [byte_of_N (N.lor (N.shiftl l 2) (N.shiftr n 4))])
  | 2%nat =>
      a2b_base64 rest 3 (N.land n 3) 0
        (out ++ [byte_of_N (N.lor (N.shiftl l 4) (N.shiftr n 2))])
  | _ => a2b_base64 rest 0 0 0 (out ++ [byte_of_N (N.lor (N.shiftl l 6) n)])
  end.
Proof.
  intros H. cbn [a2b_base64].
  rewrite (b2a_not_pad n H), (a2b_b2a n H). reflexivity.
Qed.

(** The first two characters of a group give its first byte. *)
Lemma decode_first (x : byte) (b : N) (rest : string) (out : bytes) :
  (b < 256)%N ->
  a2b_base64 (String (b2a (s0 (Byte.to_N x)))
                (String (b2a (s1 (Byte.to_N x) b)) rest)) 0 0 0 out =
  a2b_base64 rest 2 (N.shiftr b 4) 0 (out ++ [x]).
Proof.
  intros Hb.
  destruct (pair_facts (Byte.to_N x) b (to_N_lt_256 x) Hb)
    as ((H0 & H1 & _ & _) & D1 & L1 & _).
  rewrite (a2b_base64_step _ _ 0 _ _ _ H0).
  rewrite (a2b_base64_step _ _ 1 _ _ _ H1).
  rewrite L1, (byte_of_N_mod _ x D1). reflexivity.
Qed.

(** The third character gives the second byte. *)
Lemma decode_second (y : byte) (c : N) (rest : string) (out : bytes) :
  (c < 256)%N ->
  a2b_base64 (String (b2a (s2 (Byte.to_N y) c)) rest) 2
    (N.shiftr (Byte.to_N y) 4) 0 out =
  a2b_base64 rest 3 (N.shiftr c 6) 0 (out ++ [y]).
Proof.
  intros Hc.
  destruct (pair_facts (Byte.to_N y) c (to_N_lt_256 y) Hc)
    as ((_ & _ & H2 & _) & _ & _ & D2 & L2 & _).
  rewrite (a2b_base64_step _ _ 2 _ _ _ H2).
  rewrite L2, (byte_of_N_mod _ y D2). reflexivity.
Qed.

(** The fourth character gives the third byte and closes the group. *)
Lemma decode_third (z : byte) (rest : string) (out : bytes) :
  a2b_base64 (String (b2a (s3 (Byte.to_N z))) rest) 3
    (N.shiftr (Byte.to_N z) 6) 0 out =
  a2b_base64 rest 0 0 0 (out ++ [z]).
Proof.
  destruct (pair_facts (Byte.to_N z) 0 (to_N_lt_256 z) eq_refl)
    as ((_ & _ & _ & H3) & _ & _ & _ & _ & D3).
  rewrite (a2b_base64_step _ _ 3 _ _ _ H3).
  rewrite (byte_of_N_mod _ z D3). reflexivity.
Qed.

Lemma s1_last (a : N) : N.shiftl (N.land a 3) 4 = s1 a 0.
Proof. unfold s1. cbn [N.shiftr]. now rewrite N.lor_0_r. Qed.

Lemma s2_last (b : N) : N.shiftl (N.land b 15) 2 = s2 b 0.
Proof. unfold s2. cbn [N.shiftr]. now rewrite N.lor_0_r. Qed.

Lemma b64decode_b64encode_from (n : nat) :
  forall (bs out : bytes),
    (List.length bs <= n)%nat ->
    a2b_base64 (b64encode bs) 0 0 0 out = Ok (out ++ bs).
Proof.
  induction n as [|n IH]; intros bs out Hlen.
  - destruct bs; [|cbn in Hlen; lia]. cbn. now rewrite app_nil_r.
  - destruct bs as [|x [|y [|z rest]]].
    + cbn. now rewrite app_nil_r.
    + cbn [b64encode]. rewrite s1_last.
      change (N.shiftr (Byte.to_N x) 2) with (s0 (Byte.to_N x)).
      rewrite decode_first by reflexivity. reflexivity.
    + cbn [b64encode]. rewrite s2_last.
      change (N.shiftr (Byte.to_N x) 2) with (s0 (Byte.to_N x)).
      change (N.lor (N.shiftl (N.land (Byte.to_N x) 3) 4)
                (N.shiftr (Byte.to_N y) 4))
        with (s1 (Byte.to_N x) (Byte.to_N y)).
      rewrite decode_first by apply to_N_lt_256.
      rewrite decode_second by reflexivity.
      cbn. now rewrite <- app_assoc.
    + cbn [b64encode].
      change (N.shiftr (Byte.to_N x) 2) with (s0 (Byte.to_N x)).
      change (N.lor (N.shiftl (N.land (Byte.to_N x) 3) 4)
                (N.shiftr (Byte.to_N y) 4))
        with (s1 (Byte.to_N x) (Byte.to_N y)).
      change (N.lor (N.shiftl (N.land (Byte.to_N y) 15) 2)
                (N.shiftr (Byte.to_N z) 6))
        with (s2 (Byte.to_N y) (Byte.to_N z)).
      change (N.land (Byte.to_N z) 63) with (s3 (Byte.to_N z)).
      rewrite decode_first by apply to_N_lt_256.
      rewrite decode_second by apply to_N_lt_256.
      rewrite decode_third.
      rewrite IH by (cbn in Hlen; lia).
      now rewrite <- !app_assoc.
Qed.

(** [b64decode(b64encode(bs)) == bs] *)
Lemma b64decode_b64encode (bs : bytes) : b64decode (b64encode bs) = Ok bs.
Proof.
  unfold b64decode.
  now rewrite (b64decode_b64encode_from (List.length bs) bs []).
Qed.

End Base64.

(** ** How a route runs *)

Section Runs.

Variable E : externals.

Lemma revoke_expired_run (w : world) :
  access_manager.revoke_expired E w = (Ok tt, revoked E w).
Proof. reflexivity. Qed.

Lemma is_access_allowed_run (o v : json) (w : world) :
  access_manager.is_access_allowed E o v w =
  (Ok (access_manager.allowed (grants w) (clock E (ticks w)) o v),
   mkWorld (grants w) (files w) (S (ticks w)) (drawn w)
     (calls w ++ [is_access_allowed_called o v
                    (access_manager.allowed (grants w) (clock E (ticks w)) o v)])).
Proof. reflexivity. Qed.

Lemma grant_access_call_run (o v : json) (d : Z) (w : world) :
  access_manager.grant_access E o v d w =
  (Ok (mkGrant o v (clock E (ticks w)) (clock E (ticks w) + 60 * d)),
   granted_world E w o v d).
Proof. reflexivity. Qed.

(** [/view_location] on a JSON object, case by case. *)
Lemma view_location_run (kvs : list (string * json)) (w : world) :
  let o := field "owner" kvs in
  let v := field "viewer" kvs in
  serve (view_location E (post kvs)) w =
  if negb (truthy o) || negb (truthy v) then
    (jsonify_status (error_body "Missing owner or viewer") 400, w)
  else if negb (answer_at E w o v) then
    (jsonify_status (error_body "Unauthorized access or access expired") 403,
     checked E w o v)
  else
    (fst (release (files w)),
     with_calls (snd (release (files w))) (checked E w o v)).
Proof.
  intros o v.
  unfold serve, view_location, try_except, bind.
  unfold lift, post, get, get_default, get_json.
  fold (field "owner" kvs) (field "viewer" kvs). fold o v.
  destruct (negb (truthy o) || negb (truthy v)); [reflexivity|].
  rewrite revoke_expired_run, is_access_allowed_run.
  cbn [revoked grants files ticks drawn calls].
  rewrite <- app_assoc. cbn [app].
  change (access_manager.allowed
            (filter (access_manager.live (clock E (ticks w))) (grants w))
            (clock E (S (ticks w))) o v) with (answer_at E w o v).
  destruct (answer_at E w o v) eqn:Ha; cbn [negb].
  2:{ unfold checked. rewrite Ha. reflexivity. }
  unfold glob_places_output, release, latest_file, bind, emit, get_files, ret.
  cbn [grants files ticks drawn calls].
  destruct (last_item _) as [f|].
  2:{ unfold checked, with_calls. rewrite Ha. cbn. now rewrite <- app_assoc. }
  unfold open_json_load, bind, emit, raise, ret, internal_error.
  cbn [grants files ticks drawn calls].
  unfold checked, with_calls. rewrite Ha.
  cbn [grants files ticks drawn calls fst snd].
  rewrite <- !app_assoc. cbn [app].
  destruct (f_json f) as [doc|]; [|reflexivity].
  unfold get_default. destruct doc; reflexivity.
Qed.

(** [/search] on a JSON object, case by case. *)
Lemma search_run (kvs : list (string * json)) (w : world) :
  let query := field "query" kvs in
  let lat := field "lat" kvs in
  let lon := field "lon" kvs in
  let owner := field "owner" kvs in
  serve (search E (post kvs)) w =
  if negb (truthy query) || is_None lat || is_None lon then
    (jsonify_status (error_body "Missing query or coordinates") 400, revoked E w)
  else
    match run_search E query lat lon with
    | Raise e =>
        (jsonify_status (error_body (exn_str e)) 500,
         mkWorld (grants (revoked E w)) (files w) (S (ticks w)) (drawn w)
           (calls w ++ [revoke_expired_called; run_search_called query lat lon]))
    | Ok result =>
        if writable (places_output_name E owner) then
          (jsonify (payload_at E w result), searched E w query lat lon owner result)
        else
          (jsonify_status
             (error_body
                (if has_char "000"%char (places_output_name E owner)
                 then "embedded null byte"
                 else ("[Errno 2] No such file or directory: '"
                         ++ places_output_name E owner ++ "'")%string)) 500,
           mkWorld (grants (revoked E w)) (files w) (S (ticks w))
             (drawn w + 16 + 12)
             (calls w ++ [revoke_expired_called;
                          run_search_called query lat lon]))
    end.
Proof.
  intros query lat lon owner.
  unfold serve, search, try_except, bind.
  rewrite revoke_expired_run.
  unfold lift, post, get, get_default, get_json.
  fold (field "query" kvs) (field "lat" kvs) (field "lon" kvs) (field "owner" kvs).
  fold query lat lon owner.
  destruct (negb (truthy query) || is_None lat || is_None lon); [reflexivity|].
  unfold emit. cbn [revoked grants files ticks drawn calls].
  destruct (run_search E query lat lon) as [result|e];
    [|cbn; now rewrite <- !app_assoc].
  unfold encrypt_utils.encrypt_with_key, bind, ret, token_bytes.
  cbn [grants files ticks drawn calls].
  unfold searched, payload_at, raw_token, sealed, salt_at, nonce_at, plaintext_of.
  destruct (aead E _ _ _) as [ciphertext tag]. cbn [fst snd].
  rewrite b64decode_b64encode.
  unfold open_json_dump, writable, raise, bind, emit, now, get_files, set_files.
  rewrite <- !app_assoc. cbn [app].
  destruct (has_char "000"%char (places_output_name E owner));
    [reflexivity|].
  destruct (has_char "/"%char (places_output_name E owner)); [reflexivity|].
  cbn [negb andb grants files ticks drawn calls].
  now rewrite <- !app_assoc.
Qed.

(** [/grant_access] on a JSON object, case by case. *)
Lemma grant_access_run (kvs : list (string * json)) (w : world) :
  let o := field "owner" kvs in
  let v := field "viewer" kvs in
  serve (grant_access E (post kvs)) w =
  match py_int E (minutes_field kvs) with
  | Raise e => (jsonify_status (error_body (exn_str e)) 500, w)
  | Ok d =>
      if negb (truthy o) || negb (truthy v) then
        (jsonify_status (error_body "Missing owner or viewer") 400, w)
      else
        (jsonify
           (JObj [("message", JStr "✅ Access granted");
                  ("rule",
                   access_manager.rule_json
                     (mkGrant o v (clock E (ticks w))
                        (clock E (ticks w) + 60 * d)))]),
         granted_world E w o v d)
  end.
Proof.
  intros o v.
  unfold serve, grant_access, try_except, bind.
  unfold lift, post, get, get_default, get_json.
  fold (field "owner" kvs) (field "viewer" kvs) (minutes_field kvs).
  fold o v.
  destruct (py_int E (minutes_field kvs)) as [d|e]; [|reflexivity].
  destruct (negb (truthy o) || negb (truthy v)); [reflexivity|].
  rewrite grant_access_call_run. reflexivity.
Qed.

(** A request is a JSON object or it is not. *)
Lemma request_cases (req : request) :
  (exists kvs, req = post kvs) \/
  (forall kvs, get_json req <> Ok (JObj kvs)).
Proof.
  destruct req as [[d|e]]; [destruct d|]; cbn;
    try (right; intros kvs' H; discriminate H).
  left. now exists kvs.
Qed.

(** A body that is not a JSON object: every route answers 500. *)
Lemma view_location_bad_body (req : request) (w : world) :
  (forall kvs, get_json req <> Ok (JObj kvs)) ->
  exists msg,
    serve (view_location E req) w = (jsonify_status (error_body msg) 500, w).
Proof.
  intros H. destruct req as [[d|e]]; cbn in H.
  - destruct d; try (eexists; reflexivity). now destruct (H kvs).
  - eexists; reflexivity.
Qed.

Lemma search_bad_body (req : request) (w : world) :
  (forall kvs, get_json req <> Ok (JObj kvs)) ->
  exists msg,
    serve (search E req) w =
    (jsonify_status (error_body msg) 500, revoked E w).
Proof.
  intros H. destruct req as [[d|e]]; cbn in H.
  - destruct d; try (eexists; reflexivity). now destruct (H kvs).
  - eexists; reflexivity.
Qed.

Lemma grant_access_bad_body (req : request) (w : world) :
  (forall kvs, get_json req <> Ok (JObj kvs)) ->
  exists msg,
    serve (grant_access E req) w = (jsonify_status (error_body msg) 500, w).
Proof.
  intros H. destruct req as [[d|e]]; cbn in H.
  - destruct d; try (eexists; reflexivity). now destruct (H kvs).
  - eexists; reflexivity.
Qed.

(** Every route returns a response: no exception leaves it. *)
Lemma try_except_returns (m : M response) (w : world) :
  exists r w', try_except m internal_error w = (Ok r, w').
Proof.
  unfold try_except. destruct (m w) as [[r|e] w']; eauto.
  unfold internal_error, ret. eauto.
Qed.

Lemma view_location_returns (req : request) (w : world) :
  exists r w', view_location E req w = (Ok r, w').
Proof. apply try_except_returns. Qed.

Lemma search_returns (req : request) (w : world) :
  exists r w', search E req w = (Ok r, w').
Proof. apply try_except_returns. Qed.

Lemma grant_access_returns (req : request) (w : world) :
  exists r w', grant_access E req w = (Ok r, w').
Proof. apply try_except_returns. Qed.

End Runs.

(** ** [/view_location] *)

Section ViewLocation.

Variable E : externals.

Lemma allowed_false (gs : list Grant) (t : Z) (o v : json) :
  (forall g, In g gs ->
             access_manager.for_pair o v g = true ->
             access_manager.live t g = false) ->
  access_manager.allowed gs t o v = false.
Proof.
  intros H. unfold access_manager.allowed.
  induction gs as [|g gs IH]; [reflexivity|].
  cbn [existsb]. rewrite IH by (intros; apply H; [now right|assumption]).
  destruct (access_manager.for_pair o v g) eqn:Hp; [|reflexivity].
  rewrite (H g (or_introl eq_refl) Hp). reflexivity.
Qed.

(** The response of [release] is a 404 only when no file matches, and a
    200 only when a file was read. *)
Lemma release_cases (fs : list file) :
  (latest_file fs = None /\
   release fs =
   (jsonify_status (error_body "No encrypted location data found") 404,
    [glob_called])) \/
  (exists f, latest_file fs = Some f /\
             snd (release fs) = [glob_called; file_read (f_name f)] /\
             (status (fst (release fs)) = 200 \/
              status (fst (release fs)) = 500)).
Proof.
  unfold release. destruct (latest_file fs) as [f|]; [right|left; auto].
  exists f. repeat split.
  destruct (f_json f) as [doc|]; [|now right].
  destruct (get_default doc "enc_data" doc); [now left|now right].
Qed.

(** C1: for a [/view_location] request with non-empty owner and viewer the
    handler calls [revoke_expired()], then [is_access_allowed(owner,
    viewer)]; when the answer is false it responds 403 with the denial
    and makes no further call (it lists and reads no file); a 200
    response, and any file read, occur only when the answer is true. *)
Theorem view_location_checks_access_first
    (kvs : list (string * json)) (w : world) :
  let o := field "owner" kvs in
  let v := field "viewer" kvs in
  let r := fst (serve (view_location E (post kvs)) w) in
  let w' := snd (serve (view_location E (post kvs)) w) in
  truthy o = true -> truthy v = true ->
  exists answer rest,
    access_manager.revoke_expired E w = (Ok tt, revoked E w) /\
    fst (access_manager.is_access_allowed E o v (revoked E w)) = Ok answer /\
    calls w' =
      calls w ++ revoke_expired_called
              :: is_access_allowed_called o v answer :: rest /\
    (answer = false ->
     r = jsonify_status
           (error_body "Unauthorized access or access expired") 403 /\
     rest = []) /\
    (status r = 200 -> answer = true) /\
    (read rest <> [] -> answer = true).
Proof.
  intros o v r w' Ho Hv. subst r w'.
  rewrite view_location_run. fold o v.
  rewrite Ho, Hv. cbn [negb orb].
  assert (Hcall : fst (access_manager.is_access_allowed E o v (revoked E w))
                  = Ok (answer_at E w o v)) by reflexivity.
  exists (answer_at E w o v).
  destruct (answer_at E w o v) eqn:Ha; cbn [negb fst snd].
  - exists (snd (release (files w))).
    split; [reflexivity|]. split; [exact Hcall|].
    split; [|split; [discriminate|auto]].
    unfold with_calls, checked. cbn [calls]. rewrite Ha.
    now rewrite <- app_assoc.
  - exists []. split; [reflexivity|]. split; [exact Hcall|].
    split; [|split; [auto|split; [discriminate|]]].
    + unfold checked. cbn [calls]. now rewrite Ha.
    + intros H. now destruct H.
Qed.

(** C6: two unauthorized [/view_location] requests with non-empty owner
    and viewer get the same response, status 403 and the same error body,
    when the owner of the first has no grant at all and the pair of the
    second has a grant that has expired (by one of the two readings of
    the clock that the checks make). *)
Theorem denial_hides_owner_existence
    (kvs1 kvs2 : list (string * json)) (w1 w2 : world) :
  let o1 := field "owner" kvs1 in
  let v1 := field "viewer" kvs1 in
  let o2 := field "owner" kvs2 in
  let v2 := field "viewer" kvs2 in
  truthy o1 = true -> truthy v1 = true ->
  truthy o2 = true -> truthy v2 = true ->
  (forall g, In g (grants w1) -> json_eqb (owner g) o1 = false) ->
  (exists g, In g (grants w2) /\ access_manager.for_pair o2 v2 g = true) ->
  (forall g, In g (grants w2) ->
             access_manager.for_pair o2 v2 g = true ->
             expires_at g <= clock E (ticks w2) \/
             expires_at g <= clock E (S (ticks w2))) ->
  fst (serve (view_location E (post kvs1)) w1) =
    jsonify_status (error_body "Unauthorized access or access expired") 403 /\
  fst (serve (view_location E (post kvs2)) w2) =
    fst (serve (view_location E (post kvs1)) w1).
Proof.
  intros o1 v1 o2 v2 Ho1 Hv1 Ho2 Hv2 Hunknown _ Hexpired.
  assert (A1 : answer_at E w1 o1 v1 = false).
  { apply allowed_false. intros g Hg Hp.
    apply filter_In in Hg. destruct Hg as [Hg _].
    unfold access_manager.for_pair in Hp.
    rewrite (Hunknown g Hg) in Hp. discriminate Hp. }
  assert (A2 : answer_at E w2 o2 v2 = false).
  { apply allowed_false. intros g Hg Hp.
    cbn [revoked grants] in Hg.
    apply filter_In in Hg. destruct Hg as [Hg Hlive].
    unfold access_manager.live in *.
    apply Z.ltb_lt in Hlive. apply Z.ltb_ge.
    destruct (Hexpired g Hg Hp); lia. }
  rewrite !view_location_run. fold o1 v1 o2 v2.
  rewrite Ho1, Hv1, Ho2, Hv2, A1, A2. cbn. split; reflexivity.
Qed.

(** C9: an authorized [/view_location] request that finds no file matching
    [places_output_*.enc.json] is answered 404 "No encrypted location
    data found"; a 404 is given only after [revoke_expired] and
    [is_access_allowed] have been called and access was allowed; a
    request that is not authorized is answered 403. *)
Theorem not_found_only_after_access_check (req : request) (w : world) :
  let r := fst (serve (view_location E req) w) in
  let w' := snd (serve (view_location E req) w) in
  (forall kvs,
      req = post kvs ->
      truthy (field "owner" kvs) = true ->
      truthy (field "viewer" kvs) = true ->
      answer_at E w (field "owner" kvs) (field "viewer" kvs) = true ->
      filter (fun f => matches_places_output (f_name f)) (files w) = [] ->
      r = jsonify_status (error_body "No encrypted location data found") 404) /\
  (status r = 404 ->
   exists kvs,
     req = post kvs /\
     truthy (field "owner" kvs) = true /\
     truthy (field "viewer" kvs) = true /\
     calls w' =
       calls w ++ [revoke_expired_called;
                   is_access_allowed_called
                     (field "owner" kvs) (field "viewer" kvs) true;
                   glob_called]) /\
  (forall kvs,
      req = post kvs ->
      truthy (field "owner" kvs) = true ->
      truthy (field "viewer" kvs) = true ->
      answer_at E w (field "owner" kvs) (field "viewer" kvs) = false ->
      r = jsonify_status
            (error_body "Unauthorized access or access expired") 403).
Proof.
  intros r w'. subst r w'. split; [|split].
  - intros kvs -> Ho Hv Ha Hnone.
    rewrite view_location_run, Ho, Hv, Ha. cbn [negb orb fst].
    unfold release, latest_file. rewrite Hnone. reflexivity.
  - intros H.
    destruct (request_cases req) as [[kvs ->]|Hbad].
    2:{ destruct (view_location_bad_body E req w Hbad) as [msg Hm].
        rewrite Hm in H. discriminate H. }
    exists kvs. split; [reflexivity|].
    rewrite view_location_run in H |- *.
    destruct (truthy (field "owner" kvs)); [|discriminate H].
    destruct (truthy (field "viewer" kvs)); [|discriminate H].
    cbn [negb orb] in H |- *.
    destruct (answer_at E w _ _) eqn:Ha; [|discriminate H].
    cbn [negb fst snd] in H |- *.
    split; [reflexivity|]. split; [reflexivity|].
    destruct (release_cases (files w)) as [[_ Hr]|[f [_ [_ Hs]]]].
    + rewrite Hr. unfold with_calls, checked. cbn [calls snd].
      rewrite Ha. now rewrite <- app_assoc.
    + rewrite H in Hs. destruct Hs; discriminate.
  - intros kvs -> Ho Hv Ha.
    rewrite view_location_run, Ho, Hv, Ha. reflexivity.
Qed.

End ViewLocation.

(** ** [/search] *)

Section Lists.

Context {A : Type}.

Lemma firstn_exact (l r : list A) : firstn (List.length l) (l ++ r) = l.
Proof. induction l as [|x l IH]; cbn; [now destruct r|now rewrite IH]. Qed.

Lemma skipn_exact (l r : list A) : skipn (List.length l) (l ++ r) = r.
Proof. induction l as [|x l IH]; cbn; [reflexivity|exact IH]. Qed.

(** Splitting [a ++ b ++ c] at the offsets [|a|] and [|a| + |b|] gives the
    three parts back. *)
Lemma slices_of_concat (a b c : list A) (n m : nat) :
  List.length a = n -> List.length b = m ->
  slice 0 n (a ++ b ++ c) = a /\
  slice n (n + m) (a ++ b ++ c) = b /\
  slice_from (n + m) (a ++ b ++ c) = c.
Proof.
  intros <- <-. unfold slice, slice_from. repeat split.
  - rewrite Nat.sub_0_r. cbn [skipn]. apply firstn_exact.
  - rewrite skipn_exact.
    replace (List.length a + List.length b - List.length a)%nat
      with (List.length b) by lia.
    apply firstn_exact.
  - rewrite <- (length_app a b), app_assoc. apply skipn_exact.
Qed.

End Lists.

Section Files.

Lemma lookup_store_same (name : string) (t : Z) (doc : json) (fs : list file) :
  lookup_file name (store_file name t doc fs) = Some (mkFile name t (Some doc)).
Proof.
  induction fs as [|f fs IH]; cbn.
  - now rewrite String.eqb_refl.
  - destruct (f_name f =? name)%string eqn:Hn; cbn.
    + now rewrite String.eqb_refl.
    + now rewrite Hn.
Qed.

Lemma lookup_store_other (name name' : string) (t : Z) (doc : json)
    (fs : list file) :
  name' <> name ->
  lookup_file name' (store_file name t doc fs) = lookup_file name' fs.
Proof.
  intros Hne. apply not_eq_sym in Hne.
  induction fs as [|f fs IH]; cbn.
  - apply String.eqb_neq in Hne. now rewrite Hne.
  - destruct (f_name f =? name)%string eqn:Hn; cbn.
    + apply String.eqb_eq in Hn. rewrite Hn.
      apply String.eqb_neq in Hne. now rewrite Hne.
    + now rewrite IH.
Qed.

Lemma length_append (a b : string) :
  String.length (a ++ b) = (String.length a + String.length b)%nat.
Proof. induction a as [|c a IH]; cbn; [reflexivity|now rewrite IH]. Qed.

Lemma append_inj_tail (a b s : string) :
  (a ++ s = b ++ s)%string -> a = b.
Proof.
  intros H.
  assert (Hlen : String.length a = String.length b).
  { apply (f_equal String.length) in H.
    rewrite !length_append in H. lia. }
  revert b H Hlen. induction a as [|c a IH]; intros [|d b] H Hlen;
    try discriminate Hlen; [reflexivity|].
  cbn in H. injection H as -> H. f_equal. apply IH; [exact H|].
  cbn in Hlen. lia.
Qed.

(** Different owner names have different payload files. *)
Lemma payload_name_inj (a b : string) :
  ("places_output_" ++ a ++ ".enc.json" = "places_output_" ++ b ++ ".enc.json")%string ->
  a = b.
Proof.
  intros H. cbn in H. injection H as H. now apply append_inj_tail in H.
Qed.

Lemma has_char_append (c : ascii) (a b : string) :
  has_char c (a ++ b) = has_char c a || has_char c b.
Proof.
  induction a as [|d a IH]; cbn; [reflexivity|].
  now rewrite IH, orb_assoc.
Qed.

Lemma hex_length (bs : bytes) : String.length (hex bs) = (2 * List.length bs)%nat.
Proof. induction bs as [|b bs IH]; cbn [hex String.length List.length]; lia. Qed.

End Files.

Section Search.

Variable E : externals.

(** A 200 from [/search]: the body was an object with the three required
    fields, the search returned, the file name was accepted, and the
    response and the world are the ones [search_run] gives. *)
Lemma search_success (req : request) (w : world) :
  status (fst (serve (search E req) w)) = 200 ->
  exists kvs result,
    req = post kvs /\
    truthy (field "query" kvs) = true /\
    is_None (field "lat" kvs) = false /\
    is_None (field "lon" kvs) = false /\
    run_search E (field "query" kvs) (field "lat" kvs) (field "lon" kvs)
      = Ok result /\
    writable (places_output_name E (field "owner" kvs)) = true /\
    serve (search E req) w =
    (jsonify (payload_at E w result),
     searched E w (field "query" kvs) (field "lat" kvs) (field "lon" kvs)
       (field "owner" kvs) result).
Proof.
  intros H.
  destruct (request_cases req) as [[kvs ->]|Hbad].
  2:{ destruct (search_bad_body E req w Hbad) as [msg Hm].
      rewrite Hm in H. discriminate H. }
  exists kvs. rewrite search_run in H |- *.
  destruct (truthy (field "query" kvs)); [|discriminate H].
  destruct (is_None (field "lat" kvs)); [discriminate H|].
  destruct (is_None (field "lon" kvs)); [discriminate H|].
  cbn [negb orb] in H |- *.
  destruct (run_search E _ _ _) as [result|e]; [|discriminate H].
  exists result.
  destruct (writable _); [|discriminate H].
  repeat split; reflexivity.
Qed.

(** What [encrypt_with_key] returns in a world where [n] bytes have been
    drawn. *)
Lemma encrypt_with_key_run (key pt : bytes) (w : world) :
  fst (encrypt_utils.encrypt_with_key E key pt w) =
  Ok (b64encode
        (map (entropy E) (seq (drawn w) 12)
           ++ snd (aead E key (map (entropy E) (seq (drawn w) 12)) pt)
           ++ fst (aead E key (map (entropy E) (seq (drawn w) 12)) pt))).
Proof.
  unfold encrypt_utils.encrypt_with_key, bind, token_bytes, ret.
  cbn [drawn]. now destruct (aead E key _ pt).
Qed.

Lemma nonce_at_length (w : world) : List.length (nonce_at E w) = 12%nat.
Proof. unfold nonce_at. now rewrite length_map, length_seq. Qed.

Lemma salt_at_length (w : world) : List.length (salt_at E w) = 16%nat.
Proof. unfold salt_at. now rewrite length_map, length_seq. Qed.

(** Under the cipher's length contract the three slices of the decoded
    token are the nonce, the tag and the ciphertext. *)
Lemma slices_of_token (w : world) (result : json) :
  aead_contract E ->
  let raw := raw_token E w result in
  slice 0 12 raw = nonce_at E w /\
  slice 12 28 raw = snd (sealed E w result) /\
  slice_from 28 raw = fst (sealed E w result).
Proof.
  intros HC raw. subst raw. unfold raw_token.
  apply (slices_of_concat _ _ _ 12 16).
  - apply nonce_at_length.
  - unfold sealed. apply HC.
Qed.

(** C3: in every successful [/search], the salt is the next 16 bytes of
    the random source (and the source moves on), the nonce and the tag in
    the response are bytes 0-12 and 12-28 of the decoded token of
    [encrypt_with_key] and have 12 and 16 bytes, and the ciphertext is as
    long as the UTF-8 bytes of the JSON text of the search result. *)
Theorem search_encryption_lengths (req : request) (w : world) :
  aead_contract E ->
  status (fst (serve (search E req) w)) = 200 ->
  exists kvs result token raw,
    req = post kvs /\
    run_search E (field "query" kvs) (field "lat" kvs) (field "lon" kvs)
      = Ok result /\
    (forall w1, drawn w1 = (drawn w + 16)%nat ->
       fst (encrypt_utils.encrypt_with_key E
              (encrypt_utils.derive_kek E (ENCRYPT_PASSPHRASE E) (salt_at E w))
              (encode_utf8 (json_dumps E result)) w1) = Ok token) /\
    b64decode token = Ok raw /\
    body (fst (serve (search E req) w)) =
      enc_record (salt_at E w) (slice 0 12 raw) (slice 12 28 raw)
        (slice_from 28 raw) /\
    salt_at E w = map (entropy E) (seq (drawn w) 16) /\
    drawn (snd (serve (search E req) w)) = (drawn w + 16 + 12)%nat /\
    List.length (salt_at E w) = 16%nat /\
    List.length (slice 0 12 raw) = 12%nat /\
    List.length (slice 12 28 raw) = 16%nat /\
    List.length (slice_from 28 raw)
      = List.length (encode_utf8 (json_dumps E result)) /\
    String.length (hex (slice 0 12 raw)) = 24%nat /\
    String.length (hex (slice 12 28 raw)) = 32%nat.
Proof.
  intros HC H.
  destruct (search_success req w H)
    as (kvs & result & -> & _ & _ & _ & Hs & _ & Hrun).
  exists kvs, result, (b64encode (raw_token E w result)), (raw_token E w result).
  destruct (slices_of_token w result HC) as (Hn & Ht & Hc).
  rewrite Hrun. cbn [fst snd body jsonify searched drawn].
  rewrite Hn, Ht, Hc. unfold payload_at. cbv zeta. rewrite Hn, Ht, Hc.
  repeat split;
    first [ exact Hs
          | apply b64decode_b64encode
          | apply salt_at_length
          | apply nonce_at_length
          | unfold sealed; apply HC
          | rewrite hex_length, nonce_at_length; reflexivity
          | rewrite hex_length; unfold sealed;
            rewrite (proj2 (HC _ _ _)); reflexivity
          | reflexivity
          | idtac ].
  intros w1 Hw1. rewrite encrypt_with_key_run, Hw1. reflexivity.
Qed.

(** C4: in every successful [/search], the response body and the document
    written to the owner's file are the same record [{"enc_data": {...}}]
    with exactly the four fields [salt_hex], [nonce_hex], [tag_hex] and
    [ciphertext_hex], each the hexadecimal text of the salt drawn, of the
    nonce drawn, and of the tag and the ciphertext of the cipher. *)
Theorem search_payload_is_four_hex_fields (req : request) (w : world) :
  aead_contract E ->
  status (fst (serve (search E req) w)) = 200 ->
  exists kvs result,
    req = post kvs /\
    run_search E (field "query" kvs) (field "lat" kvs) (field "lon" kvs)
      = Ok result /\
    body (fst (serve (search E req) w)) =
      JObj [("enc_data",
             JObj [("salt_hex", JStr (hex (salt_at E w)));
                   ("nonce_hex", JStr (hex (nonce_at E w)));
                   ("tag_hex", JStr (hex (snd (sealed E w result))));
                   ("ciphertext_hex", JStr (hex (fst (sealed E w result))))])] /\
    option_map f_json
      (lookup_file (places_output_name E (field "owner" kvs))
         (files (snd (serve (search E req) w))))
    = Some (Some (body (fst (serve (search E req) w)))).
Proof.
  intros HC H.
  destruct (search_success req w H)
    as (kvs & result & -> & _ & _ & _ & Hs & _ & Hrun).
  exists kvs, result.
  destruct (slices_of_token w result HC) as (Hn & Ht & Hc).
  rewrite Hrun. cbn [fst snd body jsonify searched files].
  rewrite lookup_store_same. cbn [option_map f_json].
  repeat split; try assumption.
  unfold payload_at, enc_record. cbv zeta. now rewrite Hn, Ht, Hc.
Qed.

End Search.

Section SearchFiles.

Variable E : externals.

(** C7, as the code has it: a successful [/search] writes exactly one
    file, [places_output_{owner}.enc.json] for a non-empty owner string
    and [places_output_user.enc.json] when the owner is missing or empty;
    that file then holds the payload of the response, every file of
    another name is as before, and so is the payload of every other
    owner name. *)
Theorem search_writes_one_file (req : request) (w : world) :
  let r := fst (serve (search E req) w) in
  let w' := snd (serve (search E req) w) in
  status r = 200 ->
  exists kvs evs,
    let name := places_output_name E (field "owner" kvs) in
    req = post kvs /\
    calls w' = calls w ++ evs /\
    written evs = [name] /\
    option_map f_json (lookup_file name (files w')) = Some (Some (body r)) /\
    (forall name', name' <> name ->
       lookup_file name' (files w') = lookup_file name' (files w)) /\
    (forall o, field "owner" kvs = JStr o -> o <> "" ->
       name = ("places_output_" ++ o ++ ".enc.json")%string /\
       forall o', o' <> o -> payload_of (files w') o' = payload_of (files w) o') /\
    (truthy (field "owner" kvs) = false ->
       name = "places_output_user.enc.json").
Proof.
  intros r w' H. subst r w'.
  destruct (search_success E req w H)
    as (kvs & result & -> & _ & _ & _ & _ & _ & Hrun).
  exists kvs.
  exists [revoke_expired_called;
          run_search_called (field "query" kvs) (field "lat" kvs)
            (field "lon" kvs);
          file_written (places_output_name E (field "owner" kvs))].
  cbv zeta. rewrite Hrun. cbn [fst snd searched calls files body jsonify].
  split; [reflexivity|]. split; [reflexivity|]. split; [reflexivity|].
  split; [now rewrite lookup_store_same|].
  split; [intros name' Hne; now apply lookup_store_other|].
  split.
  - intros o Ho Hne.
    assert (Hname : places_output_name E (field "owner" kvs)
                    = ("places_output_" ++ o ++ ".enc.json")%string).
    { unfold places_output_name, py_or. rewrite Ho. cbn [truthy].
      apply String.eqb_neq in Hne. rewrite Hne. reflexivity. }
    split; [exact Hname|].
    intros o' Ho'. unfold payload_of.
    rewrite lookup_store_other; [reflexivity|].
    rewrite Hname. intros Heq. apply payload_name_inj in Heq. contradiction.
  - intros Hf. unfold places_output_name, py_or. now rewrite Hf.
Qed.

(** C10: a [/search] request without an [owner] field is answered 400
    exactly when [query] is empty or [lat] or [lon] is missing; when the
    search itself returns, it is answered 200; and a 200 means that
    exactly one file was written, [places_output_user.enc.json], which
    then holds the payload of the response, whatever an earlier
    owner-less request had stored there. *)
Theorem search_without_owner_uses_user (kvs : list (string * json)) (w : world) :
  let query := field "query" kvs in
  let lat := field "lat" kvs in
  let lon := field "lon" kvs in
  let r := fst (serve (search E (post kvs)) w) in
  let w' := snd (serve (search E (post kvs)) w) in
  assoc "owner" kvs = None ->
  (status r = 400 <->
   negb (truthy query) || is_None lat || is_None lon = true) /\
  (truthy query = true -> is_None lat = false -> is_None lon = false ->
   forall result, run_search E query lat lon = Ok result -> status r = 200) /\
  (status r = 200 ->
   exists evs,
     calls w' = calls w ++ evs /\
     written evs = ["places_output_user.enc.json"] /\
     payload_of (files w') "user" = Some (body r)) /\
  (forall kvs2,
     assoc "owner" kvs2 = None ->
     status r = 200 ->
     status (fst (serve (search E (post kvs2)) w')) = 200 ->
     payload_of (files (snd (serve (search E (post kvs2)) w'))) "user"
     = Some (body (fst (serve (search E (post kvs2)) w')))).
Proof.
  intros query lat lon r w' Hown.
  assert (Hname : forall kvs0, assoc "owner" kvs0 = None ->
            places_output_name E (field "owner" kvs0)
            = "places_output_user.enc.json").
  { intros kvs0 H0. unfold field. now rewrite H0. }
  assert (Hstored : forall kvs0 w0,
            assoc "owner" kvs0 = None ->
            status (fst (serve (search E (post kvs0)) w0)) = 200 ->
            payload_of (files (snd (serve (search E (post kvs0)) w0))) "user"
            = Some (body (fst (serve (search E (post kvs0)) w0)))).
  { intros kvs0 w0 H0 H200.
    destruct (search_success E _ w0 H200)
      as (kvs1 & result & Heq & _ & _ & _ & _ & _ & Hrun).
    injection Heq as <-.
    rewrite Hrun. cbn [fst snd searched files body jsonify].
    unfold payload_of. rewrite (Hname kvs0 H0).
    change ("places_output_" ++ "user" ++ ".enc.json")%string
      with "places_output_user.enc.json".
    now rewrite lookup_store_same. }
  split; [|split; [|split]].
  - subst r. rewrite search_run. fold query lat lon.
    destruct (negb (truthy query) || is_None lat || is_None lon).
    + cbn. tauto.
    + destruct (run_search E query lat lon).
      * destruct (writable _); cbn; split; discriminate.
      * cbn; split; discriminate.
  - intros Hq Hlat Hlon result Hres. subst r.
    rewrite search_run. fold query lat lon.
    rewrite Hq, Hlat, Hlon, Hres, (Hname kvs Hown). reflexivity.
  - intros H200. subst r w'.
    pose proof (Hstored kvs w Hown H200) as Hp.
    destruct (search_success E _ w H200)
      as (kvs1 & result & Heq & _ & _ & _ & _ & _ & Hrun).
    injection Heq as <-.
    rewrite Hrun in Hp |- *. cbn [fst snd] in Hp |- *.
    exists [revoke_expired_called;
            run_search_called (field "query" kvs) (field "lat" kvs)
              (field "lon" kvs);
            file_written (places_output_name E (field "owner" kvs))].
    split; [reflexivity|]. split; [|exact Hp].
    cbn [written]. now rewrite (Hname kvs Hown).
  - intros kvs2 Hown2 _ H200. now apply Hstored.
Qed.

End SearchFiles.

(** ** [/grant_access] *)

Section GrantAccess.

Variable E : externals.

(** C5, as the code has it: a [/grant_access] request whose owner or
    viewer is missing or empty never reaches
    [access_manager.grant_access] and leaves everything as it was.  When
    the body is a JSON object it is answered 400 if [duration_minutes] is
    absent or accepted by [int()], and 500 if [int()] raises; when the body
    is not a JSON object it is answered 500.  The sign of the duration is
    not checked: with owner and viewer present, every duration that [int()]
    accepts is passed to [access_manager.grant_access], and the request is
    not answered 400. *)
Theorem grant_access_rejects_missing_identifiers (req : request) (w : world) :
  let r := fst (serve (grant_access E req) w) in
  let w' := snd (serve (grant_access E req) w) in
  ((forall kvs, get_json req <> Ok (JObj kvs)) ->
   r = jsonify_status (error_body (bad_body_message req)) 500 /\ w' = w) /\
  (forall kvs,
     req = post kvs ->
     truthy (field "owner" kvs) = false \/ truthy (field "viewer" kvs) = false ->
     w' = w /\
     (forall d, py_int E (minutes_field kvs) = Ok d ->
        r = jsonify_status (error_body "Missing owner or viewer") 400) /\
     (forall e, py_int E (minutes_field kvs) = Raise e ->
        r = jsonify_status (error_body (exn_str e)) 500) /\
     (assoc "duration_minutes" kvs = None -> status r = 400)) /\
  (forall kvs,
     req = post kvs ->
     truthy (field "owner" kvs) = true -> truthy (field "viewer" kvs) = true ->
     forall d, py_int E (minutes_field kvs) = Ok d ->
       calls w' =
         calls w ++ [grant_access_called (field "owner" kvs)
                       (field "viewer" kvs) d] /\
       status r <> 400).
Proof.
  intros r w'. subst r w'. split; [|split].
  - intros H. unfold bad_body_message.
    destruct req as [[d|e]]; cbn in H |- *.
    + destruct d; try (split; reflexivity). now destruct (H kvs).
    + split; reflexivity.
  - intros kvs -> Hmiss. rewrite grant_access_run.
    assert (Hor : negb (truthy (field "owner" kvs))
                  || negb (truthy (field "viewer" kvs)) = true).
    { destruct Hmiss as [-> | ->]; [reflexivity|apply orb_true_r]. }
    rewrite Hor.
    split; [now destruct (py_int E (minutes_field kvs))|].
    split; [intros d ->; reflexivity|].
    split; [intros e ->; reflexivity|].
    intros Habs. unfold minutes_field. rewrite Habs. reflexivity.
  - intros kvs -> Ho Hv d Hd. rewrite grant_access_run, Hd, Ho, Hv.
    cbn. split; [reflexivity|discriminate].
Qed.

(** C8: when a [/grant_access] request has no [duration_minutes] field,
    the handler itself supplies the duration 5: the only duration that
    [access_manager.grant_access] can receive is the integer 5, and with
    owner and viewer present it is called once, with 5, and the grant
    lasts 5 minutes from the reading of the clock. *)
Theorem grant_access_default_duration
    (kvs : list (string * json)) (w : world) :
  let o := field "owner" kvs in
  let v := field "viewer" kvs in
  let r := fst (serve (grant_access E (post kvs)) w) in
  let w' := snd (serve (grant_access E (post kvs)) w) in
  assoc "duration_minutes" kvs = None ->
  get_default (JObj kvs) "duration_minutes" (JInt 5) = Ok (JInt 5) /\
  py_int E (JInt 5) = Ok 5 /\
  exists evs,
    calls w' = calls w ++ evs /\
    (forall d, In d (granted evs) -> d = 5) /\
    (truthy o = true -> truthy v = true ->
     evs = [grant_access_called o v 5] /\
     status r = 200 /\
     fst (access_manager.grant_access E o v 5 w)
     = Ok (mkGrant o v (clock E (ticks w)) (clock E (ticks w) + 300))).
Proof.
  intros o v r w' Habs. subst r w'.
  split; [cbn; now rewrite Habs|]. split; [reflexivity|].
  rewrite grant_access_run. fold o v.
  unfold minutes_field. rewrite Habs. cbn [py_int].
  destruct (negb (truthy o) || negb (truthy v)) eqn:Hor.
  - exists []. cbn [fst snd]. split; [now rewrite app_nil_r|].
    split; [intros d []|].
    intros Ho Hv. rewrite Ho, Hv in Hor. discriminate Hor.
  - exists [grant_access_called o v 5]. cbn [fst snd].
    split; [reflexivity|]. split.
    + intros d [<-|[]]. reflexivity.
    + intros _ _. repeat split.
Qed.

End GrantAccess.

(** ** The routes on the concrete instance *)

Section Concrete.

Import demo.

Lemma cipher_lengths : aead_contract demo.E.
Proof.
  intros key nonce pt. split; [apply length_map|reflexivity].
Qed.

(** C2: the payload that an authorized viewer of alice receives.  Alice
    and then carol have searched, alice has granted bob access (carol has
    not), and bob asks for alice's location: the request is answered 200
    with the payload stored for carol, which is not the payload stored for
    alice. *)
Theorem view_location_releases_latest_file_of_any_owner :
  let r := fst (serve (view_location demo.E (post alice_bob)) alice_then_carol) in
  answer_at demo.E alice_then_carol (JStr "alice") (JStr "bob") = true /\
  answer_at demo.E alice_then_carol (JStr "carol") (JStr "bob") = false /\
  status r = 200 /\
  payload_of (files alice_then_carol) "carol" = Some (body r) /\
  payload_of (files alice_then_carol) "alice" <> Some (body r) /\
  payload_of (files alice_then_carol) "alice" <> None.
Proof.
  vm_compute. repeat split; discriminate.
Qed.

(** C5 as stated fails: a request with owner, viewer and a duration of 0
    minutes, or of -3 minutes, is answered 200 and
    [access_manager.grant_access] is called with that duration. *)
Lemma grant_access_accepts_non_positive_duration :
  (status (fst (serve (grant_access demo.E (post (alice_bob_for 0))) empty_world))
   = 200 /\
   calls (snd (serve (grant_access demo.E (post (alice_bob_for 0))) empty_world))
   = [grant_access_called (JStr "alice") (JStr "bob") 0]) /\
  (status (fst (serve (grant_access demo.E (post (alice_bob_for (-3)))) empty_world))
   = 200 /\
   calls (snd (serve (grant_access demo.E (post (alice_bob_for (-3)))) empty_world))
   = [grant_access_called (JStr "alice") (JStr "bob") (-3)]).
Proof. vm_compute. repeat split. Qed.

(** C7 as stated fails: after the owner named "user" has searched, a
    successful request that names no owner writes
    [places_output_user.enc.json], which is not named after an owner of
    the request, and the payload stored for "user" is no longer the one
    that "user" stored. *)
Lemma search_without_owner_overwrites_user :
  let r := fst (serve (search demo.E (post search_unnamed)) user_searched) in
  let w' := snd (serve (search demo.E (post search_unnamed)) user_searched) in
  status r = 200 /\
  field "owner" search_unnamed = JNull /\
  written (skipn (List.length (calls user_searched)) (calls w'))
  = ["places_output_user.enc.json"] /\
  payload_of (files user_searched) "user" <> None /\
  payload_of (files w') "user" <> payload_of (files user_searched) "user".
Proof.
  vm_compute. repeat split; discriminate.
Qed.

(** The theorems above at concrete requests. *)

Lemma view_location_checks_access_first_witness :
  truthy (field "owner" alice_bob) = true /\
  truthy (field "viewer" alice_bob) = true /\
  exists answer rest,
    access_manager.revoke_expired demo.E alice_then_carol
      = (Ok tt, revoked demo.E alice_then_carol) /\
    fst (access_manager.is_access_allowed demo.E (JStr "alice") (JStr "bob")
           (revoked demo.E alice_then_carol)) = Ok answer /\
    calls (snd (serve (view_location demo.E (post alice_bob)) alice_then_carol)) =
      calls alice_then_carol
        ++ revoke_expired_called
        :: is_access_allowed_called (JStr "alice") (JStr "bob") answer :: rest /\
    (answer = false ->
     fst (serve (view_location demo.E (post alice_bob)) alice_then_carol)
     = jsonify_status
         (error_body "Unauthorized access or access expired") 403 /\
     rest = []) /\
    (status (fst (serve (view_location demo.E (post alice_bob)) alice_then_carol))
     = 200 -> answer = true) /\
    (read rest <> [] -> answer = true).
Proof.
  split; [reflexivity|]. split; [reflexivity|].
  exact (view_location_checks_access_first demo.E alice_bob alice_then_carol
           eq_refl eq_refl).
Defined.

Lemma denial_hides_owner_existence_witness :
  fst (serve (view_location demo.E (post alice_bob)) empty_world) =
    jsonify_status (error_body "Unauthorized access or access expired") 403 /\
  fst (serve (view_location demo.E (post alice_bob)) stale_grant) =
    fst (serve (view_location demo.E (post alice_bob)) empty_world).
Proof.
  apply (denial_hides_owner_existence demo.E alice_bob alice_bob
           empty_world stale_grant); try reflexivity.
  - intros g [].
  - exists (mkGrant (JStr "alice") (JStr "bob") 600 900).
    split; [left; reflexivity|reflexivity].
  - intros g [<-|[]] _. left. vm_compute. discriminate.
Defined.

Lemma not_found_only_after_access_check_witness :
  fst (serve (view_location demo.E (post alice_bob)) alice_granted)
  = jsonify_status (error_body "No encrypted location data found") 404 /\
  exists kvs,
    post alice_bob = post kvs /\
    truthy (field "owner" kvs) = true /\
    truthy (field "viewer" kvs) = true /\
    calls (snd (serve (view_location demo.E (post alice_bob)) alice_granted)) =
      calls alice_granted
        ++ [revoke_expired_called;
            is_access_allowed_called
              (field "owner" kvs) (field "viewer" kvs) true;
            glob_called].
Proof.
  destruct (not_found_only_after_access_check demo.E (post alice_bob)
              alice_granted) as (Hfound & Honly & _).
  split.
  - exact (Hfound alice_bob eq_refl eq_refl eq_refl eq_refl eq_refl).
  - apply Honly. vm_compute. reflexivity.
Defined.

Lemma search_encryption_lengths_witness :
  aead_contract demo.E /\
  status (fst (serve (search demo.E (post (search_by "alice"))) empty_world))
  = 200 /\
  exists kvs result token raw,
    post (search_by "alice") = post kvs /\
    run_search demo.E (field "query" kvs) (field "lat" kvs) (field "lon" kvs)
      = Ok result /\
    (forall w1, drawn w1 = (drawn empty_world + 16)%nat ->
       fst (encrypt_utils.encrypt_with_key demo.E
              (encrypt_utils.derive_kek demo.E (ENCRYPT_PASSPHRASE demo.E)
                 (salt_at demo.E empty_world))
              (encode_utf8 (json_dumps demo.E result)) w1) = Ok token) /\
    b64decode token = Ok raw /\
    body (fst (serve (search demo.E (post (search_by "alice"))) empty_world)) =
      enc_record (salt_at demo.E empty_world) (slice 0 12 raw)
        (slice 12 28 raw) (slice_from 28 raw) /\
    salt_at demo.E empty_world
      = map (entropy demo.E) (seq (drawn empty_world) 16) /\
    drawn (snd (serve (search demo.E (post (search_by "alice"))) empty_world))
      = (drawn empty_world + 16 + 12)%nat /\
    List.length (salt_at demo.E empty_world) = 16%nat /\
    List.length (slice 0 12 raw) = 12%nat /\
    List.length (slice 12 28 raw) = 16%nat /\
    List.length (slice_from 28 raw)
      = List.length (encode_utf8 (json_dumps demo.E result)) /\
    String.length (hex (slice 0 12 raw)) = 24%nat /\
    String.length (hex (slice 12 28 raw)) = 32%nat.
Proof.
  split; [exact cipher_lengths|]. split; [vm_compute; reflexivity|].
  apply (search_encryption_lengths demo.E (post (search_by "alice"))
           empty_world cipher_lengths).
  vm_compute. reflexivity.
Defined.

Lemma search_payload_is_four_hex_fields_witness :
  aead_contract demo.E /\
  status (fst (serve (search demo.E (post (search_by "alice"))) empty_world))
  = 200 /\
  exists kvs result,
    post (search_by "alice") = post kvs /\
    run_search demo.E (field "query" kvs) (field "lat" kvs) (field "lon" kvs)
      = Ok result /\
    body (fst (serve (search demo.E (post (search_by "alice"))) empty_world)) =
      JObj [("enc_data",
             JObj [("salt_hex", JStr (hex (salt_at demo.E empty_world)));
                   ("nonce_hex", JStr (hex (nonce_at demo.E empty_world)));
                   ("tag_hex",
                    JStr (hex (snd (sealed demo.E empty_world result))));
                   ("ciphertext_hex",
                    JStr (hex (fst (sealed demo.E empty_world result))))])] /\
    option_map f_json
      (lookup_file (places_output_name demo.E (field "owner" kvs))
         (files (snd (serve (search demo.E (post (search_by "alice")))
                        empty_world))))
    = Some (Some (body (fst (serve (search demo.E (post (search_by "alice")))
                              empty_world)))).
Proof.
  split; [exact cipher_lengths|]. split; [vm_compute; reflexivity|].
  apply (search_payload_is_four_hex_fields demo.E (post (search_by "alice"))
           empty_world cipher_lengths).
  vm_compute. reflexivity.
Defined.

Lemma search_writes_one_file_witness :
  status (fst (serve (search demo.E (post (search_by "alice"))) empty_world))
  = 200 /\
  exists kvs evs,
    post (search_by "alice") = post kvs /\
    calls (snd (serve (search demo.E (post (search_by "alice"))) empty_world))
      = calls empty_world ++ evs /\
    written evs = [places_output_name demo.E (field "owner" kvs)].
Proof.
  split; [vm_compute; reflexivity|].
  destruct (search_writes_one_file demo.E (post (search_by "alice"))
              empty_world) as (kvs & evs & Hreq & Hcalls & Hwritten & _).
  - vm_compute. reflexivity.
  - exists kvs, evs. repeat split; assumption.
Defined.

Lemma search_without_owner_uses_user_witness :
  assoc "owner" search_unnamed = None /\
  status (fst (serve (search demo.E (post search_unnamed)) user_searched))
  = 200 /\
  payload_of
    (files (snd (serve (search demo.E (post search_unnamed)) user_searched)))
    "user"
  = Some (body (fst (serve (search demo.E (post search_unnamed))
                      user_searched))).
Proof.
  destruct (search_without_owner_uses_user demo.E search_unnamed
              user_searched eq_refl) as (_ & Hok & Hstored & _).
  split; [reflexivity|].
  assert (H200 : status (fst (serve (search demo.E (post search_unnamed))
                                user_searched)) = 200).
  { apply (Hok eq_refl eq_refl eq_refl _ eq_refl). }
  split; [exact H200|].
  destruct (Hstored H200) as (evs & _ & _ & Hp). exact Hp.
Defined.

Lemma grant_access_rejects_missing_identifiers_witness :
  ((forall kvs, get_json (mkRequest (Ok JNull)) <> Ok (JObj kvs)) /\
   fst (serve (grant_access demo.E (mkRequest (Ok JNull))) empty_world)
   = jsonify_status
       (error_body "'NoneType' object has no attribute 'get'") 500 /\
   snd (serve (grant_access demo.E (mkRequest (Ok JNull))) empty_world)
   = empty_world) /\
  (truthy (field "owner" [("viewer", JStr "bob")]) = false /\
   fst (serve (grant_access demo.E (post [("viewer", JStr "bob")])) empty_world)
   = jsonify_status (error_body "Missing owner or viewer") 400 /\
   snd (serve (grant_access demo.E (post [("viewer", JStr "bob")])) empty_world)
   = empty_world) /\
  (truthy (field "owner" (alice_bob_for 0)) = true /\
   calls (snd (serve (grant_access demo.E (post (alice_bob_for 0)))
                 empty_world))
   = [grant_access_called (JStr "alice") (JStr "bob") 0] /\
   status (fst (serve (grant_access demo.E (post (alice_bob_for 0)))
                  empty_world)) <> 400).
Proof.
  assert (Hnull : forall kvs, get_json (mkRequest (Ok JNull)) <> Ok (JObj kvs))
    by (intros kvs; discriminate).
  split; [|split].
  - destruct (grant_access_rejects_missing_identifiers demo.E
                (mkRequest (Ok JNull)) empty_world) as (Hbad & _).
    destruct (Hbad Hnull) as (H500 & Hw).
    split; [exact Hnull|]. split; [exact H500|exact Hw].
  - destruct (grant_access_rejects_missing_identifiers demo.E
                (post [("viewer", JStr "bob")]) empty_world) as (_ & Hmiss & _).
    destruct (Hmiss _ eq_refl (or_introl eq_refl)) as (Hw & H400 & _).
    split; [reflexivity|]. split; [exact (H400 5 eq_refl)|exact Hw].
  - destruct (grant_access_rejects_missing_identifiers demo.E
                (post (alice_bob_for 0)) empty_world) as (_ & _ & Hpass).
    destruct (Hpass _ eq_refl eq_refl eq_refl 0 eq_refl) as (Hcalls & Hnot).
    split; [reflexivity|]. split; [exact Hcalls|exact Hnot].
Defined.

Lemma grant_access_default_duration_witness :
  assoc "duration_minutes" alice_bob = None /\
  exists evs,
    calls (snd (serve (grant_access demo.E (post alice_bob)) empty_world))
      = calls empty_world ++ evs /\
    evs = [grant_access_called (JStr "alice") (JStr "bob") 5].
Proof.
  split; [reflexivity|].
  destruct (grant_access_default_duration demo.E alice_bob empty_world eq_refl)
    as (_ & _ & evs & Hcalls & _ & Hcall).
  exists evs. split; [exact Hcalls|].
  exact (proj1 (Hcall eq_refl eq_refl)).
Defined.

End Concrete.

(** * Further properties of the routes *)

(** ** The newest matching file *)

Section Newest.

Lemma insert_by_mtime_In (f x : file) (l : list file) :
  In x (insert_by_mtime f l) <-> x = f \/ In x l.
Proof.
  induction l as [|g l IH]; cbn.
  - intuition congruence.
  - destruct (st_mtime f <=? st_mtime g); cbn; [intuition congruence|].
    rewrite IH. intuition congruence.
Qed.

Lemma sorted_by_mtime_In (x : file) (l : list file) :
  In x (sorted_by_mtime l) <-> In x l.
Proof.
  induction l as [|f l IH]; cbn; [reflexivity|].
  rewrite insert_by_mtime_In, IH. intuition congruence.
Qed.

Lemma insert_by_mtime_sorted (f : file) (l : list file) :
  StronglySorted mtime_le l -> StronglySorted mtime_le (insert_by_mtime f l).
Proof.
  induction l as [|g l IH]; intros Hs; cbn.
  - constructor; constructor.
  - apply StronglySorted_inv in Hs. destruct Hs as [Hl Hg].
    destruct (st_mtime f <=? st_mtime g) eqn:Hle.
    + apply Z.leb_le in Hle. constructor; [now constructor|].
      constructor; [exact Hle|].
      rewrite Forall_forall in Hg |- *. intros x Hx.
      specialize (Hg x Hx). unfold mtime_le in *. lia.
    + apply Z.leb_gt in Hle. constructor; [now apply IH|].
      rewrite Forall_forall in Hg |- *. intros x Hx.
      apply insert_by_mtime_In in Hx. destruct Hx as [->|Hx].
      * unfold mtime_le. lia.
      * now apply Hg.
Qed.

Lemma sorted_by_mtime_sorted (l : list file) :
  StronglySorted mtime_le (sorted_by_mtime l).
Proof.
  induction l as [|f l IH]; cbn; [constructor|].
  now apply insert_by_mtime_sorted.
Qed.

Lemma last_item_In {A} (l : list A) (x : A) : last_item l = Some x -> In x l.
Proof.
  induction l as [|y [|z l] IH]; cbn; intros H; try discriminate.
  - injection H as ->. now left.
  - right. now apply IH.
Qed.

Lemma last_item_None {A} (l : list A) : last_item l = None <-> l = [].
Proof.
  split; [|now intros ->].
  induction l as [|y [|z l] IH]; cbn; intros H; try discriminate; auto.
  specialize (IH H). discriminate IH.
Qed.

Lemma last_item_greatest (l : list file) (f : file) :
  StronglySorted mtime_le l -> last_item l = Some f ->
  forall g, In g l -> st_mtime g <= st_mtime f.
Proof.
  induction l as [|y [|z l] IH]; intros Hs Hl g Hg; try discriminate.
  - injection Hl as ->. destruct Hg as [->|[]]. lia.
  - apply StronglySorted_inv in Hs. destruct Hs as [Hs Hy].
    change (last_item (z :: l) = Some f) in Hl.
    destruct Hg as [->|Hg].
    + rewrite Forall_forall in Hy.
      apply (Hy f). now apply last_item_In.
    + now apply IH.
Qed.

(** The file that [sorted(...)[-1]] picks is a listed file that matches the
    pattern and none that matches is newer; there is none exactly when no
    file matches. *)
Lemma latest_file_newest (fs : list file) :
  (forall f, latest_file fs = Some f ->
     In f fs /\ matches_places_output (f_name f) = true /\
     forall g, In g fs -> matches_places_output (f_name g) = true ->
               st_mtime g <= st_mtime f) /\
  (latest_file fs = None <->
   forall g, In g fs -> matches_places_output (f_name g) = false).
Proof.
  unfold latest_file. fold (matching fs). split.
  - intros f Hf.
    assert (Hin : In f (matching fs)).
    { apply sorted_by_mtime_In. now apply last_item_In. }
    apply filter_In in Hin. destruct Hin as [Hin Hm].
    split; [exact Hin|]. split; [exact Hm|].
    intros g Hg Hgm.
    apply (last_item_greatest _ f (sorted_by_mtime_sorted (matching fs)) Hf).
    apply sorted_by_mtime_In. apply filter_In. now split.
  - rewrite last_item_None. split.
    + intros Hnil g Hg.
      destruct (matches_places_output (f_name g)) eqn:Hm; [|reflexivity].
      assert (Hin : In g (sorted_by_mtime (matching fs))).
      { apply sorted_by_mtime_In. apply filter_In. now split. }
      rewrite Hnil in Hin. destruct Hin.
    + intros Hnone.
      destruct (sorted_by_mtime (matching fs)) as [|x l] eqn:Hs; [reflexivity|].
      assert (Hin : In x (matching fs)).
      { apply sorted_by_mtime_In. rewrite Hs. now left. }
      apply filter_In in Hin. destruct Hin as [Hin Hm].
      rewrite (Hnone x Hin) in Hm. discriminate Hm.
Qed.

End Newest.

(** ** More on [/view_location] *)

Section ViewLocationMore.

Variable E : externals.

(** The status of [/view_location] tells which check failed: 400 exactly for
    an object body whose owner or viewer is missing or empty, and then
    nothing was called and nothing changed; 403 exactly for an object body
    with owner and viewer that [is_access_allowed] refused. *)
Theorem view_location_status_meaning (req : request) (w : world) :
  let r := fst (serve (view_location E req) w) in
  let w' := snd (serve (view_location E req) w) in
  (status r = 400 <->
   exists kvs, req = post kvs /\
     (truthy (field "owner" kvs) = false \/
      truthy (field "viewer" kvs) = false)) /\
  (status r = 403 <->
   exists kvs, req = post kvs /\
     truthy (field "owner" kvs) = true /\
     truthy (field "viewer" kvs) = true /\
     answer_at E w (field "owner" kvs) (field "viewer" kvs) = false) /\
  (status r = 400 ->
   r = jsonify_status (error_body "Missing owner or viewer") 400 /\ w' = w).
Proof.
  intros r w'. subst r w'.
  destruct (request_cases req) as [[kvs ->]|Hbad].
  2:{ destruct (view_location_bad_body E req w Hbad) as [msg Hm].
      rewrite Hm. cbn [fst snd status jsonify_status].
      repeat split; try discriminate.
      - intros (kvs & -> & _). now destruct (Hbad kvs).
      - intros (kvs & -> & _). now destruct (Hbad kvs). }
  rewrite view_location_run.
  assert (Hinj : forall kvs', post kvs = post kvs' -> kvs' = kvs)
    by (intros kvs' H; now injection H).
  assert (Hst : forall fs, status (fst (release fs)) <> 400 /\
                           status (fst (release fs)) <> 403).
  { intros fs.
    destruct (release_cases fs) as [[_ ->]|[f [_ [_ [Hs|Hs]]]]];
      cbn [fst status jsonify_status]; try rewrite Hs; split; discriminate. }
  destruct (Hst (files w)) as [Hst400 Hst403].
  destruct (truthy (field "owner" kvs)) eqn:Ho;
    [destruct (truthy (field "viewer" kvs)) eqn:Hv|];
    cbn [negb orb]; [destruct (answer_at E w _ _) eqn:Ha|..];
    cbn [negb fst snd status jsonify_status];
    (split; [|split]);
    try (split; intros H);
    try (intros H);
    repeat match goal with
           | H : exists _, _ |- _ => destruct H
           | H : _ /\ _ |- _ => destruct H
           | H : _ \/ _ |- _ => destruct H
           | H : post _ = post _ |- _ => apply Hinj in H; subst
           end;
    try discriminate; try congruence; try contradiction.
  all: try (exists kvs; auto).
  all: try (split; reflexivity).
Qed.

(** An allowed [/view_location] request is answered from the newest file
    that matches [places_output_*.enc.json], whoever wrote it: it is
    answered 404 exactly when no file matches; otherwise the one file it
    reads is a matching file than which no matching file is newer, the
    response wraps the [enc_data] field of its document, or the whole
    document when it has no such field, and a file that holds no JSON
    object is answered 500. *)
Theorem view_location_releases_newest_match
    (kvs : list (string * json)) (w : world) :
  let o := field "owner" kvs in
  let v := field "viewer" kvs in
  let r := fst (serve (view_location E (post kvs)) w) in
  let w' := snd (serve (view_location E (post kvs)) w) in
  truthy o = true -> truthy v = true -> answer_at E w o v = true ->
  (status r = 404 <->
   forall g, In g (files w) -> matches_places_output (f_name g) = false) /\
  ((exists g, In g (files w) /\ matches_places_output (f_name g) = true) ->
   exists f,
     In f (files w) /\ matches_places_output (f_name f) = true /\
     (forall g, In g (files w) -> matches_places_output (f_name g) = true ->
                st_mtime g <= st_mtime f) /\
     calls w' =
       calls w ++ [revoke_expired_called; is_access_allowed_called o v true;
                   glob_called; file_read (f_name f)] /\
     (forall kvs0, f_json f = Some (JObj kvs0) ->
        r = jsonify
              (JObj [("enc_data",
                      match assoc "enc_data" kvs0 with
                      | Some d => d
                      | None => JObj kvs0
                      end)])) /\
     (f_json f = None -> status r = 500) /\
     (forall doc, f_json f = Some doc ->
        (forall kvs0, doc <> JObj kvs0) -> status r = 500)).
Proof.
  intros o v r w' Ho Hv Ha. subst r w'.
  rewrite view_location_run. fold o v. rewrite Ho, Hv, Ha.
  cbn [negb orb fst snd].
  destruct (latest_file_newest (files w)) as [Hsome Hnone].
  unfold release. destruct (latest_file (files w)) as [f|] eqn:Hl.
  - destruct (Hsome f eq_refl) as (Hin & Hm & Hmax).
    split.
    + split.
      * intros H. cbn [fst] in H.
        destruct (f_json f) as [doc|]; [|discriminate H].
        destruct (get_default doc "enc_data" doc); discriminate H.
      * intros H. rewrite (H f Hin) in Hm. discriminate Hm.
    + intros _. exists f. split; [exact Hin|]. split; [exact Hm|].
      split; [exact Hmax|]. cbn [fst snd]. split.
      * unfold with_calls, checked. cbn [calls]. rewrite Ha.
        now rewrite <- app_assoc.
      * split; [|split].
        -- intros kvs0 ->. reflexivity.
        -- intros ->. reflexivity.
        -- intros doc -> Hno. destruct doc; try reflexivity.
           now destruct (Hno kvs0).
  - split.
    + split; [intros _; now apply Hnone|reflexivity].
    + intros (g & Hg & Hm).
      rewrite (proj1 Hnone eq_refl g Hg) in Hm. discriminate Hm.
Qed.

(** [/view_location] only reads: whatever the request, it leaves the files
    of the directory and the random source as they were, writes no file
    and never calls [access_manager.grant_access]. *)
Theorem view_location_changes_no_file (req : request) (w : world) :
  let w' := snd (serve (view_location E req) w) in
  files w' = files w /\ drawn w' = drawn w /\
  exists evs,
    calls w' = calls w ++ evs /\ written evs = [] /\ granted evs = [].
Proof.
  intros w'. subst w'.
  destruct (request_cases req) as [[kvs ->]|Hbad].
  2:{ destruct (view_location_bad_body E req w Hbad) as [msg ->].
      cbn [snd]. repeat split. exists []. now rewrite app_nil_r. }
  rewrite view_location_run.
  destruct (negb _ || negb _).
  { cbn [snd]. repeat split. exists []. now rewrite app_nil_r. }
  destruct (answer_at E w _ _) eqn:Ha; cbn [negb snd].
  - repeat split.
    exists (revoke_expired_called
              :: is_access_allowed_called (field "owner" kvs)
                   (field "viewer" kvs) true
              :: snd (release (files w))).
    split.
    + unfold with_calls, checked. cbn [calls]. rewrite Ha.
      now rewrite <- app_assoc.
    + destruct (release_cases (files w)) as [[_ ->]|[f [_ [-> _]]]];
        split; reflexivity.
  - repeat split. eexists. split; [reflexivity|]. split; reflexivity.
Qed.

End ViewLocationMore.

(** ** More on [/search] *)

Section Directory.

Lemma substring_all (s : string) : substring 0 (String.length s) s = s.
Proof. induction s as [|c s IH]; cbn; [reflexivity|now rewrite IH]. Qed.

Lemma substring_tail (a b : string) :
  substring (String.length a) (String.length b) (a ++ b) = b.
Proof. induction a as [|c a IH]; cbn; [apply substring_all|exact IH]. Qed.

Lemma ends_with_append (a suffix : string) : ends_with suffix (a ++ suffix) = true.
Proof.
  unfold ends_with. rewrite length_append.
  replace (String.length a + String.length suffix - String.length suffix)%nat
    with (String.length a) by lia.
  rewrite substring_tail, String.eqb_refl.
  apply andb_true_iff. split; [apply Nat.leb_le; lia|reflexivity].
Qed.

Lemma prefix_append (a b : string) : prefix a (a ++ b) = true.
Proof.
  induction a as [|c a IH]; cbn; [now destruct b|].
  destruct (ascii_dec c c) as [_|Hne]; [exact IH|now destruct Hne].
Qed.

(** Every name that [/search] gives a file matches the pattern by which
    [/view_location] looks for files. *)
Lemma places_output_name_matches (E : externals) (owner : json) :
  matches_places_output (places_output_name E owner) = true.
Proof.
  unfold places_output_name, matches_places_output.
  set (o := py_str E (py_or owner (JStr "user"))).
  apply andb_true_iff. split; [apply andb_true_iff; split|].
  - apply prefix_append.
  - change ("places_output_" ++ o ++ ".enc.json")%string
      with (("places_output_" ++ o) ++ ".enc.json")%string at 1.
    apply ends_with_append.
  - apply Nat.leb_le. rewrite !length_append. cbn. lia.
Qed.

Lemma store_file_In (name : string) (t : Z) (doc : json) (fs : list file) :
  In (mkFile name t (Some doc)) (store_file name t doc fs) /\
  forall g, In g (store_file name t doc fs) ->
            g = mkFile name t (Some doc) \/ In g fs.
Proof.
  induction fs as [|f fs [IH1 IH2]]; cbn.
  - split; [now left|]. intros g [<-|[]]. now left.
  - destruct (f_name f =? name)%string; cbn.
    + split; [now left|]. intros g [<-|Hg]; auto.
    + split; [now right|]. intros g [<-|Hg]; auto.
      destruct (IH2 g Hg); auto.
Qed.

Lemma store_file_count (name : string) (t : Z) (doc : json) (fs : list file) :
  (forall n, In n (names (store_file name t doc fs)) <->
             n = name \/ In n (names fs)) /\
  (In name (names fs) ->
   List.length (store_file name t doc fs) = List.length fs) /\
  (~ In name (names fs) ->
   List.length (store_file name t doc fs) = S (List.length fs)).
Proof.
  induction fs as [|f fs (IHm & IHin & IHout)]; cbn.
  - split; [intros n; intuition congruence|].
    split; [intros []|reflexivity].
  - destruct (f_name f =? name)%string eqn:Hn; cbn.
    + apply String.eqb_eq in Hn. split; [|split].
      * intros n. rewrite Hn. intuition congruence.
      * reflexivity.
      * intros H. destruct H. now left.
    + apply String.eqb_neq in Hn. split; [|split].
      * intros n. rewrite IHm. intuition congruence.
      * intros [H|H]; [contradiction|]. f_equal. now apply IHin.
      * intros H. f_equal. apply IHout. intros H'. apply H. now right.
Qed.

Lemma slices_partition {A} (l : list A) :
  slice 0 12 l ++ slice 12 28 l ++ slice_from 28 l = l.
Proof.
  unfold slice, slice_from. cbn [Nat.sub skipn].
  change (28 - 12)%nat with 16%nat.
  transitivity (firstn 12 l ++ skipn 12 l); [f_equal|apply firstn_skipn].
  transitivity (firstn 16 (skipn 12 l) ++ skipn 16 (skipn 12 l));
    [f_equal; now rewrite skipn_skipn|apply firstn_skipn].
Qed.

Lemma hex_digit_injective (a b : N) :
  (a < 16)%N -> (b < 16)%N -> hex_digit a = hex_digit b -> a = b.
Proof.
  intros Ha Hb H.
  assert (Hok : hex_digit_ok a b = true).
  { clear H. revert b Hb. apply (forallb_N_below (hex_digit_ok a) 16).
    revert a Ha.
    apply (forallb_N_below
             (fun a => forallb (hex_digit_ok a) (map N.of_nat (seq 0 16))) 16).
    vm_compute. reflexivity. }
  unfold hex_digit_ok in Hok. rewrite H, Ascii.eqb_refl in Hok.
  now apply N.eqb_eq in Hok.
Qed.

Lemma to_N_injective (x y : byte) : Byte.to_N x = Byte.to_N y -> x = y.
Proof.
  intros H. apply (f_equal Byte.of_N) in H.
  rewrite !Byte.of_to_N in H. now injection H.
Qed.

(** [bytes.hex()] loses nothing. *)
Lemma hex_injective (a b : bytes) : hex a = hex b -> a = b.
Proof.
  revert b. induction a as [|x a IH]; intros [|y b] H; try discriminate H.
  - reflexivity.
  - cbn [hex] in H. injection H as Hhi Hlo Hrest.
    pose proof (to_N_lt_256 x). pose proof (to_N_lt_256 y).
    apply hex_digit_injective in Hhi;
      [|apply N.Div0.div_lt_upper_bound; lia..].
    apply hex_digit_injective in Hlo; [|apply N.mod_lt; lia..].
    f_equal; [|now apply IH].
    apply to_N_injective.
    rewrite (N.div_mod (Byte.to_N x) 16), (N.div_mod (Byte.to_N y) 16) by lia.
    now rewrite Hhi, Hlo.
Qed.

End Directory.

Section SearchMore.

Variable E : externals.

(** [/search] on an object body is answered 400 exactly when [query] is
    missing or empty or [lat] or [lon] is missing or null (a latitude or
    longitude of zero is accepted); the expired grants have then been swept,
    and nothing else was called, no file changed and no random byte
    drawn. *)
Theorem search_rejects_missing_fields (kvs : list (string * json)) (w : world) :
  let r := fst (serve (search E (post kvs)) w) in
  let w' := snd (serve (search E (post kvs)) w) in
  (status r = 400 <->
   truthy (field "query" kvs) = false \/
   field "lat" kvs = JNull \/ field "lon" kvs = JNull) /\
  (status r = 400 ->
   r = jsonify_status (error_body "Missing query or coordinates") 400 /\
   calls w' = calls w ++ [revoke_expired_called] /\
   files w' = files w /\ drawn w' = drawn w).
Proof.
  intros r w'. subst r w'. rewrite search_run.
  assert (Hnone : forall v, is_None v = true <-> v = JNull).
  { intros v. destruct v; cbn; split; congruence. }
  destruct (truthy (field "query" kvs)) eqn:Hq; cbn [negb orb].
  2:{ cbn. split; [split; auto|]. intros _. repeat split. }
  destruct (is_None (field "lat" kvs)) eqn:Hlat; cbn [orb].
  { cbn. split; [split; [intros _; right; left; now apply Hnone|auto]|].
    intros _. repeat split. }
  destruct (is_None (field "lon" kvs)) eqn:Hlon; cbn [orb].
  { cbn. split; [split; [intros _; right; right; now apply Hnone|auto]|].
    intros _. repeat split. }
  assert (Hno : ~ (true = false \/ field "lat" kvs = JNull \/
                   field "lon" kvs = JNull)).
  { intros [H|[H|H]]; [discriminate H| |]; apply Hnone in H; congruence. }
  destruct (run_search E _ _ _); [destruct (writable _)|]; cbn;
    (split; [split; [discriminate|intros H; now destruct Hno]|discriminate]).
Qed.

(** Whatever the request, [/search] first calls [revoke_expired()] and
    reads no file.  A request that fails before the file is opened (its
    body is not a JSON object, [query] is missing or empty, [lat] or [lon]
    is missing or null, or [run_search] raises) is not answered 200, has
    written no file, has drawn no random byte and has left every file of
    the directory as it was. *)
Theorem search_failure_writes_nothing (req : request) (w : world) :
  let r := fst (serve (search E req) w) in
  let w' := snd (serve (search E req) w) in
  exists evs,
    calls w' = calls w ++ revoke_expired_called :: evs /\
    read evs = [] /\
    ((forall kvs, get_json req <> Ok (JObj kvs)) \/
     (exists kvs,
        req = post kvs /\
        (truthy (field "query" kvs) = false \/
         field "lat" kvs = JNull \/ field "lon" kvs = JNull \/
         exists e,
           run_search E (field "query" kvs) (field "lat" kvs)
             (field "lon" kvs) = Raise e)) ->
     status r <> 200 /\ files w' = files w /\ written evs = [] /\
     drawn w' = drawn w).
Proof.
  intros r w'. subst r w'.
  destruct (request_cases req) as [[kvs ->]|Hbad].
  2:{ destruct (search_bad_body E req w Hbad) as [msg ->].
      exists []. cbn. repeat split. discriminate. }
  rewrite search_run.
  assert (Hinj : forall kvs', post kvs = post kvs' -> kvs' = kvs)
    by (intros kvs' H; now injection H).
  destruct (truthy (field "query" kvs)) eqn:Hq; cbn [negb orb].
  2:{ exists []. cbn. repeat split. discriminate. }
  destruct (field "lat" kvs) eqn:Hlat; cbn [is_None orb];
    try (exists []; cbn; repeat split; discriminate).
  all: destruct (field "lon" kvs) eqn:Hlon; cbn [is_None orb];
    try (exists []; cbn; repeat split; discriminate).
  all: destruct (run_search E _ _ _) as [result|e] eqn:Hrun;
    [|eexists [_]; cbn; repeat split; discriminate].
  all: destruct (writable _);
    [eexists [_; _]|eexists [_]];
    (split; [reflexivity|]); (split; [reflexivity|]);
    intros [Hbad|(kvs' & Heq & Hc)];
    try (now destruct (Hbad kvs));
    apply Hinj in Heq; subst kvs';
    destruct Hc as [Hc|[Hc|[Hc|[e Hc]]]]; congruence.
Qed.

(** A successful [/search] does not accumulate files: afterwards the
    directory has the file names it had and the name of the owner's file,
    and no other; it has as many files as before when the owner's file
    was there already, and one more when it was not. *)
Theorem search_does_not_accumulate_files (req : request) (w : world) :
  let r := fst (serve (search E req) w) in
  let w' := snd (serve (search E req) w) in
  status r = 200 ->
  exists kvs,
    let name := places_output_name E (field "owner" kvs) in
    req = post kvs /\
    (forall n, In n (names (files w')) <-> n = name \/ In n (names (files w))) /\
    (In name (names (files w)) ->
     List.length (files w') = List.length (files w)) /\
    (~ In name (names (files w)) ->
     List.length (files w') = S (List.length (files w))).
Proof.
  intros r w' H. subst r w'.
  destruct (search_success E req w H)
    as (kvs & result & -> & _ & _ & _ & _ & _ & Hrun).
  exists kvs. cbv zeta. rewrite Hrun. cbn [snd searched files].
  set (name := places_output_name E (field "owner" kvs)).
  destruct (store_file_count name (clock E (S (ticks w)))
              (payload_at E w result) (files w)) as (Hmem & Hin & Hout).
  split; [reflexivity|]. split; [exact Hmem|]. split; [exact Hin|exact Hout].
Qed.

(** The split of the token loses nothing, whatever the cipher: in a
    successful [/search] the nonce, tag and ciphertext whose hexadecimal
    texts are in the response are, one after the other, exactly the bytes
    of the decoded token of [encrypt_with_key]; the nonce has at most 12
    bytes and the tag at most 16, and exactly 12 and 16 when the token has
    at least 28 bytes. *)
Theorem search_token_split_is_lossless (req : request) (w : world) :
  status (fst (serve (search E req) w)) = 200 ->
  exists kvs result token raw nonce tag ciphertext,
    req = post kvs /\
    run_search E (field "query" kvs) (field "lat" kvs) (field "lon" kvs)
      = Ok result /\
    (forall w1, drawn w1 = (drawn w + 16)%nat ->
       fst (encrypt_utils.encrypt_with_key E
              (encrypt_utils.derive_kek E (ENCRYPT_PASSPHRASE E) (salt_at E w))
              (encode_utf8 (json_dumps E result)) w1) = Ok token) /\
    b64decode token = Ok raw /\
    body (fst (serve (search E req) w))
      = enc_record (salt_at E w) nonce tag ciphertext /\
    nonce ++ tag ++ ciphertext = raw /\
    (List.length nonce <= 12)%nat /\ (List.length tag <= 16)%nat /\
    ((28 <= List.length raw)%nat ->
     List.length nonce = 12%nat /\ List.length tag = 16%nat /\
     List.length ciphertext = (List.length raw - 28)%nat).
Proof.
  intros H.
  destruct (search_success E req w H)
    as (kvs & result & -> & _ & _ & _ & Hs & _ & Hrun).
  set (raw := raw_token E w result).
  exists kvs, result, (b64encode raw), raw,
    (slice 0 12 raw), (slice 12 28 raw), (slice_from 28 raw).
  rewrite Hrun. cbn [fst body jsonify].
  split; [reflexivity|]. split; [exact Hs|].
  split; [intros w1 Hw1; rewrite encrypt_with_key_run, Hw1; reflexivity|].
  split; [apply b64decode_b64encode|]. split; [reflexivity|].
  split; [apply slices_partition|].
  unfold slice, slice_from.
  rewrite !length_firstn, !length_skipn.
  repeat split; lia.
Qed.

(** The payload record determines its bytes: two records are equal only
    when their salts, nonces, tags and ciphertexts are equal byte for
    byte. *)
Theorem payload_record_injective
    (salt nonce tag ct salt' nonce' tag' ct' : bytes) :
  enc_record salt nonce tag ct = enc_record salt' nonce' tag' ct' ->
  salt = salt' /\ nonce = nonce' /\ tag = tag' /\ ct = ct'.
Proof.
  unfold enc_record. intros H. injection H as H1 H2 H3 H4.
  repeat split; now apply hex_injective.
Qed.

End SearchMore.

(** ** [/search] followed by [/view_location] *)

Section SearchThenView.

Variable E : externals.

Lemma view_location_404_iff (kvs : list (string * json)) (w : world) :
  truthy (field "owner" kvs) = true ->
  truthy (field "viewer" kvs) = true ->
  answer_at E w (field "owner" kvs) (field "viewer" kvs) = true ->
  (status (fst (serve (view_location E (post kvs)) w)) = 404 <->
   forall g, In g (files w) -> matches_places_output (f_name g) = false).
Proof.
  intros Ho Hv Ha. rewrite view_location_run, Ho, Hv, Ha.
  cbn [negb orb fst].
  destruct (latest_file_newest (files w)) as [Hsome Hnone].
  destruct (release_cases (files w)) as [[Hl ->]|[f [Hl [_ Hs]]]].
  - cbn. split; [intros _; now apply Hnone|reflexivity].
  - destruct (Hsome f Hl) as (Hin & Hm & _). split.
    + intros H. rewrite H in Hs. destruct Hs; discriminate.
    + intros H. rewrite (H f Hin) in Hm. discriminate Hm.
Qed.

(** After a successful [/search], a [/view_location] request that is
    allowed is never answered 404: the file that [/search] wrote has a name
    that the pattern of [/view_location] matches. *)
Theorem view_after_search_finds_a_file
    (req : request) (kvs' : list (string * json)) (w : world) :
  let w' := snd (serve (search E req) w) in
  status (fst (serve (search E req) w)) = 200 ->
  truthy (field "owner" kvs') = true ->
  truthy (field "viewer" kvs') = true ->
  answer_at E w' (field "owner" kvs') (field "viewer" kvs') = true ->
  status (fst (serve (view_location E (post kvs')) w')) <> 404.
Proof.
  intros w' H Ho Hv Ha H404. subst w'.
  pose proof (view_location_404_iff kvs' _ Ho Hv Ha) as Hnone.
  destruct (search_success E req w H)
    as (kvs & result & -> & _ & _ & _ & _ & _ & Hrun).
  rewrite Hrun in Hnone, H404. cbn [snd] in Hnone, H404.
  pose proof (proj1 Hnone H404) as Hall.
  cbn [searched files] in Hall.
  destruct (store_file_In (places_output_name E (field "owner" kvs))
              (clock E (S (ticks w))) (payload_at E w result) (files w))
    as [Hin _].
  specialize (Hall _ Hin). cbn [f_name] in Hall.
  rewrite places_output_name_matches in Hall. discriminate Hall.
Qed.

(** What [/search] stores, [/view_location] gives back: when every matching
    file of the directory is older than the time at which [/search] writes,
    an allowed [/view_location] request that follows a successful
    [/search] is answered with exactly the response of that [/search]. *)
Theorem view_after_search_returns_payload
    (req : request) (kvs' : list (string * json)) (w : world) :
  let r := fst (serve (search E req) w) in
  let w' := snd (serve (search E req) w) in
  status r = 200 ->
  (forall g, In g (files w) -> matches_places_output (f_name g) = true ->
             st_mtime g < clock E (S (ticks w))) ->
  truthy (field "owner" kvs') = true ->
  truthy (field "viewer" kvs') = true ->
  answer_at E w' (field "owner" kvs') (field "viewer" kvs') = true ->
  fst (serve (view_location E (post kvs')) w') = r.
Proof.
  intros r w' H Hold Ho Hv Ha. subst r w'.
  destruct (search_success E req w H)
    as (kvs & result & -> & _ & _ & _ & _ & _ & Hrun).
  rewrite Hrun in Ha |- *. cbn [fst snd] in Ha |- *.
  rewrite view_location_run, Ho, Hv, Ha. cbn [negb orb fst].
  set (name := places_output_name E (field "owner" kvs)).
  set (t := clock E (S (ticks w))).
  set (new := mkFile name t (Some (payload_at E w result))).
  cbn [searched files]. fold name t.
  destruct (store_file_In name t (payload_at E w result) (files w))
    as [Hin Hfrom].
  destruct (latest_file_newest
              (store_file name t (payload_at E w result) (files w)))
    as [Hsome Hnone].
  unfold release.
  destruct (latest_file _) as [f|] eqn:Hl.
  - destruct (Hsome f eq_refl) as (Hf & Hm & Hmax).
    assert (Hnew : f = new).
    { destruct (Hfrom f Hf) as [->|Hfw]; [reflexivity|].
      pose proof (Hold f Hfw Hm) as Hlt.
      pose proof (Hmax new Hin (places_output_name_matches E _)) as Hge.
      cbn [st_mtime new] in Hge. lia. }
    rewrite Hnew. reflexivity.
  - pose proof (proj1 Hnone eq_refl new Hin) as Hm.
    cbn [f_name new] in Hm. subst name.
    rewrite places_output_name_matches in Hm. discriminate Hm.
Qed.

End SearchThenView.

(** ** More on [/grant_access] and on all three routes *)

Section AllRoutes.

Variable E : externals.

(** The default duration replaces a missing field only: a request whose
    [duration_minutes] is an explicit null, a list or an object is answered
    500 with the [TypeError] of [int()], also when owner and viewer are
    given, and nothing is called or changed. *)
Theorem grant_access_refuses_non_numeric_duration
    (kvs : list (string * json)) (w : world) (v : json) :
  assoc "duration_minutes" kvs = Some v ->
  (v = JNull \/ (exists xs, v = JArr xs) \/ (exists o, v = JObj o)) ->
  serve (grant_access E (post kvs)) w =
  (jsonify_status
     (error_body
        ("int() argument must be a string, a bytes-like object or a real number, not '"
           ++ type_name v ++ "'")%string) 500,
   w).
Proof.
  intros Hk Hv. rewrite grant_access_run. unfold minutes_field. rewrite Hk.
  destruct Hv as [->|[[xs ->]|[o ->]]]; reflexivity.
Qed.

(** [/grant_access] is answered 200 exactly for an object body whose
    duration [int()] accepts and whose owner and viewer are both present;
    then [access_manager.grant_access] was called once, with that duration.
    Any other request changes nothing at all.  No request touches a file
    or the random source. *)
Theorem grant_access_status_meaning (req : request) (w : world) :
  let r := fst (serve (grant_access E req) w) in
  let w' := snd (serve (grant_access E req) w) in
  (status r = 200 <->
   exists kvs d,
     req = post kvs /\ py_int E (minutes_field kvs) = Ok d /\
     truthy (field "owner" kvs) = true /\
     truthy (field "viewer" kvs) = true /\
     calls w' =
       calls w ++ [grant_access_called (field "owner" kvs)
                     (field "viewer" kvs) d]) /\
  (status r <> 200 -> w' = w) /\
  files w' = files w /\ drawn w' = drawn w.
Proof.
  intros r w'. subst r w'.
  destruct (request_cases req) as [[kvs ->]|Hbad].
  2:{ destruct (grant_access_bad_body E req w Hbad) as [msg ->].
      cbn [fst snd status jsonify_status]. repeat split; try discriminate.
      intros (kvs & d & -> & _). now destruct (Hbad kvs). }
  rewrite grant_access_run.
  assert (Hinj : forall kvs', post kvs = post kvs' -> kvs' = kvs)
    by (intros kvs' H; now injection H).
  destruct (py_int E (minutes_field kvs)) as [d|e] eqn:Hd.
  2:{ cbn [fst snd status jsonify_status]. repeat split; try discriminate.
      intros (kvs' & d & Heq & Hd' & _). apply Hinj in Heq. subst kvs'.
      congruence. }
  destruct (truthy (field "owner" kvs)) eqn:Ho;
    [destruct (truthy (field "viewer" kvs)) eqn:Hv|]; cbn [negb orb].
  - cbn [fst snd status jsonify granted_world files drawn calls].
    repeat split; try reflexivity.
    + intros _. exists kvs, d. repeat split; assumption.
    + intros H. now destruct H.
  - cbn [fst snd status jsonify_status]. repeat split; try discriminate.
    intros (kvs' & d' & Heq & _ & _ & Hv' & _). apply Hinj in Heq.
    subst kvs'. congruence.
  - cbn [fst snd status jsonify_status]. repeat split; try discriminate.
    intros (kvs' & d' & Heq & _ & Ho' & _). apply Hinj in Heq.
    subst kvs'. congruence.
Qed.

(** A request body that is not a JSON object (null, a list, a string, a
    number, or a body that [get_json()] refuses) is answered 500 by every
    route, with the message of the exception.  [/view_location] and
    [/grant_access] then leave the world as it was; [/search] has already
    swept the expired grants. *)
Theorem routes_reject_non_object_body (req : request) (w : world) :
  (forall kvs, get_json req <> Ok (JObj kvs)) ->
  serve (view_location E req) w =
    (jsonify_status (error_body (bad_body_message req)) 500, w) /\
  serve (grant_access E req) w =
    (jsonify_status (error_body (bad_body_message req)) 500, w) /\
  serve (search E req) w =
    (jsonify_status (error_body (bad_body_message req)) 500, revoked E w) /\
  calls (revoked E w) = calls w ++ [revoke_expired_called] /\
  files (revoked E w) = files w.
Proof.
  intros H. unfold bad_body_message. destruct req as [[d|e]]; cbn in H |- *.
  - destruct d; try (repeat split; reflexivity). now destruct (H kvs).
  - repeat split; reflexivity.
Qed.

(** Every response has one of two shapes: a response that is not a 200 is
    an object with the single field [error], and its status is 400, 403,
    404 or 500 for [/view_location] and 400 or 500 for [/search] and
    [/grant_access]; a 200 is [{"enc_data": ...}] for [/view_location]
    and [/search], and [{"message": ..., "rule": ...}] for
    [/grant_access]. *)
Theorem every_response_is_error_or_payload (req : request) (w : world) :
  let rv := fst (serve (view_location E req) w) in
  let rs := fst (serve (search E req) w) in
  let rg := fst (serve (grant_access E req) w) in
  ((status rv = 200 /\ exists d, body rv = JObj [("enc_data", d)]) \/
   ((status rv = 400 \/ status rv = 403 \/ status rv = 404 \/ status rv = 500)
    /\ exists msg, body rv = error_body msg)) /\
  ((status rs = 200 /\ exists d, body rs = JObj [("enc_data", d)]) \/
   ((status rs = 400 \/ status rs = 500)
    /\ exists msg, body rs = error_body msg)) /\
  ((status rg = 200 /\
    exists rule, body rg = JObj [("message", JStr "✅ Access granted");
                                 ("rule", rule)]) \/
   ((status rg = 400 \/ status rg = 500)
    /\ exists msg, body rg = error_body msg)).
Proof.
  intros rv rs rg. subst rv rs rg.
  destruct (request_cases req) as [[kvs ->]|Hbad].
  2:{ destruct (view_location_bad_body E req w Hbad) as [m1 ->].
      destruct (search_bad_body E req w Hbad) as [m2 ->].
      destruct (grant_access_bad_body E req w Hbad) as [m3 ->].
      repeat split; shape. }
  split; [|split].
  - rewrite view_location_run.
    destruct (negb _ || negb _); [shape|].
    destruct (answer_at E w _ _); cbn [negb fst]; [|shape].
    unfold release. destruct (latest_file (files w)) as [f|]; [|shape].
    cbn [fst].
    destruct (f_json f) as [doc|]; [|shape].
    destruct (get_default doc "enc_data" doc); shape.
  - rewrite search_run.
    destruct (negb _ || _ || _); [shape|].
    destruct (run_search E _ _ _); [|shape].
    destruct (writable _); shape.
  - rewrite grant_access_run.
    destruct (py_int E _); [|shape].
    destruct (negb _ || negb _); shape.
Qed.

End AllRoutes.

(** ** The further properties on concrete requests *)

Section ConcreteMore.

Import demo scenes.

Lemma view_location_status_meaning_witness :
  status (fst (serve (view_location demo.E (post [("owner", JStr "alice")]))
                empty_world)) = 400 /\
  snd (serve (view_location demo.E (post [("owner", JStr "alice")]))
         empty_world) = empty_world /\
  status (fst (serve (view_location demo.E (post alice_bob)) stale_grant)) = 403.
Proof.
  destruct (view_location_status_meaning demo.E
              (post [("owner", JStr "alice")]) empty_world)
    as ((_ & H400) & _ & Hsame).
  destruct (view_location_status_meaning demo.E (post alice_bob) stale_grant)
    as (_ & (_ & H403) & _).
  assert (H : status (fst (serve (view_location demo.E
                                    (post [("owner", JStr "alice")]))
                             empty_world)) = 400).
  { apply H400. exists [("owner", JStr "alice")].
    split; [reflexivity|]. right. reflexivity. }
  split; [exact H|]. split; [exact (proj2 (Hsame H))|].
  apply H403. exists alice_bob. repeat split.
Defined.

Lemma view_location_releases_newest_match_witness :
  answer_at demo.E mixed_directory (JStr "alice") (JStr "bob") = true /\
  exists f,
    In f (files mixed_directory) /\
    f_name f = "places_output_old.enc.json" /\
    fst (serve (view_location demo.E (post alice_bob)) mixed_directory) =
    jsonify (JObj [("enc_data",
                    JObj [("salt_hex", JStr "00"); ("nonce_hex", JStr "01")])]).
Proof.
  split; [reflexivity|].
  destruct (view_location_releases_newest_match demo.E alice_bob
              mixed_directory eq_refl eq_refl eq_refl) as (_ & Hsome).
  destruct Hsome as (f & Hin & Hm & Hmax & _ & Hdoc & _).
  { exists (mkFile "places_output_broken.enc.json" 10 None).
    split; [left; reflexivity|reflexivity]. }
  assert (Hf : f = mkFile "places_output_old.enc.json" 20
                     (Some (JObj [("salt_hex", JStr "00");
                                  ("nonce_hex", JStr "01")]))).
  { destruct Hin as [<-|[<-|[<-|[]]]].
    - specialize (Hmax _ (or_intror (or_introl eq_refl)) eq_refl).
      cbn in Hmax. lia.
    - reflexivity.
    - discriminate Hm. }
  exists f. split; [rewrite Hf; right; left; reflexivity|].
  split; [now rewrite Hf|].
  apply (Hdoc [("salt_hex", JStr "00"); ("nonce_hex", JStr "01")]).
  now rewrite Hf.
Defined.

Lemma search_rejects_missing_fields_witness :
  status (fst (serve (search demo.E (post no_query)) empty_world)) = 400 /\
  files (snd (serve (search demo.E (post no_query)) empty_world)) = [] /\
  status (fst (serve (search demo.E (post at_origin)) empty_world)) <> 400.
Proof.
  destruct (search_rejects_missing_fields demo.E no_query empty_world)
    as ((_ & H400) & Hthen).
  destruct (search_rejects_missing_fields demo.E at_origin empty_world)
    as ((Hnot & _) & _).
  assert (H : status (fst (serve (search demo.E (post no_query)) empty_world))
              = 400) by (apply H400; left; reflexivity).
  split; [exact H|]. split.
  - destruct (Hthen H) as (_ & _ & Hfiles & _). exact Hfiles.
  - intros Hbad. destruct (Hnot Hbad) as [Hq|[Hq|Hq]]; discriminate Hq.
Defined.

Lemma search_failure_writes_nothing_witness :
  truthy (field "query" no_query) = false /\
  status (fst (serve (search demo.E (post no_query)) user_searched)) <> 200 /\
  files (snd (serve (search demo.E (post no_query)) user_searched))
  = files user_searched.
Proof.
  split; [reflexivity|].
  destruct (search_failure_writes_nothing demo.E (post no_query) user_searched)
    as (evs & _ & _ & Hfail).
  destruct Hfail as (Hnot & Hfiles & _).
  { right. exists no_query. split; [reflexivity|]. left. reflexivity. }
  split; [exact Hnot|exact Hfiles].
Defined.

Lemma search_does_not_accumulate_files_witness :
  status (fst (serve (search demo.E (post (search_by "user"))) user_searched))
  = 200 /\
  List.length (files (snd (serve (search demo.E (post (search_by "user")))
                             user_searched)))
  = List.length (files user_searched).
Proof.
  assert (H : status (fst (serve (search demo.E (post (search_by "user")))
                             user_searched)) = 200)
    by (vm_compute; reflexivity).
  split; [exact H|].
  destruct (search_does_not_accumulate_files demo.E (post (search_by "user"))
              user_searched H) as (kvs & Heq & _ & Hin & _).
  injection Heq as <-. apply Hin. vm_compute. left. reflexivity.
Defined.

Lemma search_token_split_is_lossless_witness :
  status (fst (serve (search demo.E (post (search_by "alice"))) empty_world))
  = 200 /\
  exists raw nonce tag ciphertext,
    body (fst (serve (search demo.E (post (search_by "alice"))) empty_world))
    = enc_record (salt_at demo.E empty_world) nonce tag ciphertext /\
    nonce ++ tag ++ ciphertext = raw.
Proof.
  assert (H : status (fst (serve (search demo.E (post (search_by "alice")))
                             empty_world)) = 200)
    by (vm_compute; reflexivity).
  split; [exact H|].
  destruct (search_token_split_is_lossless demo.E _ _ H)
    as (kvs & result & token & raw & nonce & tag & ct
        & _ & _ & _ & _ & Hbody & Hcat & _).
  exists raw, nonce, tag, ct. split; assumption.
Defined.

Lemma payload_record_injective_witness :
  enc_record [x01] [x02] [x03] [x04] = enc_record [x01] [x02] [x03] [x04] /\
  ([x01] = [x01] /\ [x02] = [x02] /\ [x03] = [x03] /\ [x04] = [x04]).
Proof.
  split; [reflexivity|].
  exact (payload_record_injective [x01] [x02] [x03] [x04]
           [x01] [x02] [x03] [x04] eq_refl).
Defined.

Lemma view_after_search_finds_a_file_witness :
  status (fst (serve (search demo.E (post (search_by "dave"))) alice_granted))
  = 200 /\
  status (fst (serve (view_location demo.E (post alice_bob))
                 (snd (serve (search demo.E (post (search_by "dave")))
                         alice_granted)))) <> 404.
Proof.
  assert (H : status (fst (serve (search demo.E (post (search_by "dave")))
                             alice_granted)) = 200)
    by (vm_compute; reflexivity).
  split; [exact H|].
  apply (view_after_search_finds_a_file demo.E (post (search_by "dave"))
           alice_bob alice_granted H); vm_compute; reflexivity.
Defined.

Lemma view_after_search_returns_payload_witness :
  status (fst (serve (search demo.E (post (search_by "alice")))
                 alice_then_carol)) = 200 /\
  fst (serve (view_location demo.E (post alice_bob))
         (snd (serve (search demo.E (post (search_by "alice")))
                 alice_then_carol)))
  = fst (serve (search demo.E (post (search_by "alice"))) alice_then_carol).
Proof.
  assert (H : status (fst (serve (search demo.E (post (search_by "alice")))
                             alice_then_carol)) = 200)
    by (vm_compute; reflexivity).
  split; [exact H|].
  apply (view_after_search_returns_payload demo.E (post (search_by "alice"))
           alice_bob alice_then_carol H);
    [|vm_compute; reflexivity..].
  assert (Hold : forallb
                   (fun g => st_mtime g <? clock demo.E (S (ticks alice_then_carol)))
                   (files alice_then_carol) = true)
    by (vm_compute; reflexivity).
  intros g Hg _. apply Z.ltb_lt.
  exact (proj1 (forallb_forall _ _) Hold g Hg).
Defined.

Lemma grant_access_refuses_non_numeric_duration_witness :
  assoc "duration_minutes" null_duration = Some JNull /\
  serve (grant_access demo.E (post null_duration)) empty_world =
  (jsonify_status
     (error_body
        "int() argument must be a string, a bytes-like object or a real number, not 'NoneType'")
     500,
   empty_world).
Proof.
  split; [reflexivity|].
  exact (grant_access_refuses_non_numeric_duration demo.E null_duration
           empty_world JNull eq_refl (or_introl eq_refl)).
Defined.

Lemma grant_access_status_meaning_witness :
  status (fst (serve (grant_access demo.E (post alice_bob)) empty_world)) = 200 /\
  (status (fst (serve (grant_access demo.E (post null_duration)) empty_world))
   <> 200 /\
   snd (serve (grant_access demo.E (post null_duration)) empty_world)
   = empty_world).
Proof.
  destruct (grant_access_status_meaning demo.E (post alice_bob) empty_world)
    as ((_ & H200) & _).
  destruct (grant_access_status_meaning demo.E (post null_duration) empty_world)
    as (_ & Hsame & _).
  split.
  - apply H200. exists alice_bob, 5. repeat split.
  - assert (H : status (fst (serve (grant_access demo.E (post null_duration))
                               empty_world)) <> 200)
      by (vm_compute; discriminate).
    split; [exact H|exact (Hsame H)].
Defined.

Lemma routes_reject_non_object_body_witness :
  (forall kvs, get_json (mkRequest (Ok JNull)) <> Ok (JObj kvs)) /\
  serve (view_location demo.E (mkRequest (Ok JNull))) stale_grant =
  (jsonify_status
     (error_body "'NoneType' object has no attribute 'get'") 500,
   stale_grant).
Proof.
  assert (H : forall kvs, get_json (mkRequest (Ok JNull)) <> Ok (JObj kvs))
    by (intros kvs; discriminate).
  split; [exact H|].
  exact (proj1 (routes_reject_non_object_body demo.E (mkRequest (Ok JNull))
                  stale_grant H)).
Defined.

End ConcreteMore.
